(** * bench_compare: the benchmark report generator of [tools/bench_compare.py]

    The program reads JSON files of benchmark records, groups the records by
    scenario and prints one comparison table per scenario, with ratios
    against the (rust, rust) reference.

    The development has five parts:
    - [Py]: the fragment of Python the program relies on (decoded JSON
      values, exceptions, truthiness, [dict] and [set], format
      specifications, binary64 arithmetic);
    - [BenchCompare]: the three functions of the source file, line by line;
    - [Report]: the vocabulary of the specification;
    - [Sample]: the records of the specification's end-to-end example;
    - [Properties]: the lemmas and the theorems. *)

From Stdlib Require Import ZArith List String Ascii Bool Lia.
From Stdlib Require Import Sorted DecimalString.
From Stdlib Require Import Floats.SpecFloat.
Import ListNotations.

Notation "s +++ t" := (String.append s t)
  (at level 60, right associativity) : string_scope.

Local Open Scope string_scope.
Local Open Scope Z_scope.
Local Open Scope list_scope.

(** ** The Python fragment *)

Module Py.

(** A value produced by [json.load]: [None], [bool], [int], [float], [str],
    [list], or [dict] with [str] keys.  A character of a [str] is an [ascii];
    the model covers the code points below 256.  A [dict] is the list of its
    bindings, each key occurring once. *)
#[local] Set Warnings "-register-all".
Inductive value :=
| VNone
| VBool (b : bool)
| VInt (z : Z)
| VFloat (f : spec_float)
| VStr (s : string)
| VList (l : list value)
| VDict (d : list (string * value)).
#[local] Set Warnings "register-all".

(** The exceptions the run can end in. *)
Inductive exn :=
| AttributeError
| TypeError
| ValueError (msg : string)
| KeyError
| OverflowError
| ZeroDivisionError
| OSError
| JSONDecodeError
| UnicodeDecodeError.

(** The outcome of evaluating an expression.  [Unmodelled] marks the few
    behaviours of Python left outside the model: the [repr] of a float or
    of a container, and a NaN used as a key (it is found by identity) or
    met while sorting. *)
Inductive outcome (A : Type) :=
| Ok (a : A)
| Raise (e : exn)
| Unmodelled.
Arguments Ok {A} a.
Arguments Raise {A} e.
Arguments Unmodelled {A}.

Definition obind {A B} (m : outcome A) (k : A -> outcome B) : outcome B :=
  match m with
  | Ok a => k a
  | Raise e => Raise e
  | Unmodelled => Unmodelled
  end.

(** A computation that prints: the printed lines, in order, and the outcome.
    What was printed before an exception stays printed. *)
Definition io (A : Type) : Type := list string * outcome A.

Definition ret {A} (a : A) : io A := ([], Ok a).
Definition lift {A} (m : outcome A) : io A := ([], m).
Definition print (line : string) : io unit := ([line], Ok tt).
Definition bind {A B} (m : io A) (k : A -> io B) : io B :=
  match snd m with
  | Ok a => (fst m ++ fst (k a), snd (k a))
  | Raise e => (fst m, Raise e)
  | Unmodelled => (fst m, Unmodelled)
  end.

(** [for x in xs: body x] *)
Fixpoint for_each {A} (xs : list A) (body : A -> io unit) : io unit :=
  match xs with
  | [] => ret tt
  | x :: xs' => bind (body x) (fun _ => for_each xs' body)
  end.

(** *** Binary64 *)

Definition prec : Z := 53.
Definition emax : Z := 1024.
Definition fzero : spec_float := S754_zero false.

(** [float(z)]: rounded to nearest, ties to even; too large an [int] raises. *)
Definition float_of_int (z : Z) : outcome spec_float :=
  match binary_normalize prec emax z 0 false with
  | S754_infinity _ => Raise OverflowError
  | f => Ok f
  end.

Definition Z_of_bool (b : bool) : Z := if b then 1 else 0.

(** *** Truthiness, attribute access, equality of keys *)

Definition truthy (v : value) : bool :=
  match v with
  | VNone => false
  | VBool b => b
  | VInt z => negb (z =? 0)
  | VFloat (S754_zero _) => false
  | VFloat _ => true
  | VStr s => negb (String.eqb s "")
  | VList l => match l with [] => false | _ => true end
  | VDict d => match d with [] => false | _ => true end
  end.

(** [x or y] *)
Definition py_or (x y : value) : value := if truthy x then x else y.

Fixpoint assoc (k : string) (d : list (string * value)) : option value :=
  match d with
  | [] => None
  | (k', v) :: d' => if String.eqb k' k then Some v else assoc k d'
  end.

(** [item.get(key, default)]: only a [dict] has the method. *)
Definition py_get (item : value) (key : string) (default : value)
  : outcome value :=
  match item with
  | VDict d => Ok (match assoc key d with Some v => v | None => default end)
  | _ => Raise AttributeError
  end.

Definition hashable (v : value) : bool :=
  match v with
  | VList _ | VDict _ => false
  | _ => true
  end.

(** The exact value of a key: [None], a string, or a number.  A finite
    number is [m * 2^e] with [m] odd, or 0; it is the same for an [int], a
    [bool] and a [float] of the same value, and for both zeros.  A NaN, a
    [list] and a [dict] have none. *)
Inductive key :=
| KNone
| KStr (s : string)
| KNum (m e : Z)
| KInf (neg : bool).

Fixpoint odd_part (m : positive) (e : Z) : positive * Z :=
  match m with
  | xO m' => odd_part m' (e + 1)
  | _ => (m, e)
  end.

Definition num_key (neg : bool) (m : positive) (e : Z) : key :=
  let (m', e') := odd_part m e in
  KNum (if neg then Zneg m' else Zpos m') e'.

Definition int_key (z : Z) : key :=
  match z with
  | Z0 => KNum 0 0
  | Zpos m => num_key false m 0
  | Zneg m => num_key true m 0
  end.

Definition key_of (v : value) : option key :=
  match v with
  | VNone => Some KNone
  | VBool b => Some (int_key (Z_of_bool b))
  | VInt z => Some (int_key z)
  | VFloat (S754_zero _) => Some (KNum 0 0)
  | VFloat (S754_infinity s) => Some (KInf s)
  | VFloat (S754_finite s m e) => Some (num_key s m e)
  | VFloat S754_nan => None
  | VStr s => Some (KStr s)
  | VList _ | VDict _ => None
  end.

Definition key_eqb (x y : key) : bool :=
  match x, y with
  | KNone, KNone => true
  | KStr s, KStr t => String.eqb s t
  | KNum m1 e1, KNum m2 e2 => (m1 =? m2) && (e1 =? e2)
  | KInf a, KInf b => Bool.eqb a b
  | _, _ => false
  end.

(** [a == b] on hashable values: equal strings, [None] with itself, and
    numbers of the same exact value across [bool], [int] and [float]; a NaN
    equals nothing. *)
Definition py_eq (a b : value) : bool :=
  match key_of a, key_of b with
  | Some x, Some y => key_eqb x y
  | _, _ => false
  end.

Definition is_nan (v : value) : bool :=
  match v with
  | VFloat S754_nan => true
  | _ => false
  end.

(** [x <= y] on the exact values of two numbers. *)
Definition num_leb (x y : key) : bool :=
  match x, y with
  | KInf true, _ => true
  | _, KInf false => true
  | KInf false, _ => false
  | _, KInf true => false
  | KNum m1 e1, KNum m2 e2 =>
      let e := Z.min e1 e2 in
      m1 * 2 ^ (e1 - e) <=? m2 * 2 ^ (e2 - e)
  | _, _ => false
  end.

Definition value_leb (a b : value) : bool :=
  match key_of a, key_of b with
  | Some x, Some y => num_leb x y
  | _, _ => false
  end.

(** Equality of two-element tuples. *)
Definition pair_eq (p q : value * value) : bool :=
  py_eq (fst p) (fst q) && py_eq (snd p) (snd q).

(** *** [dict]: bindings in insertion order, keys pairwise different *)

Section Dict.
Context {K V : Type} (keq : K -> K -> bool).

Definition dict : Type := list (K * V).

Fixpoint dict_get (d : dict) (k : K) : option V :=
  match d with
  | [] => None
  | (k', v) :: d' => if keq k' k then Some v else dict_get d' k
  end.

(** [d[k] = v]: an existing binding keeps its key and its place. *)
Fixpoint dict_set (d : dict) (k : K) (v : V) : dict :=
  match d with
  | [] => [(k, v)]
  | (k', v') :: d' =>
      if keq k' k then (k', v) :: d' else (k', v') :: dict_set d' k v
  end.
End Dict.

(** [s.add(k)] on a set kept in insertion order. *)
Definition set_add (s : list value) (k : value) : list value :=
  if existsb (fun k' => py_eq k' k) s then s else s ++ [k].

(** *** Format specifications *)

Fixpoint spaces (n : nat) : string :=
  match n with
  | O => ""
  | S n' => String " " (spaces n')
  end.

(** [<w]: left-aligned in a field of at least [w] characters. *)
Definition ljust (w : nat) (s : string) : string :=
  s +++ spaces (w - String.length s)%nat.

(** [>w]: right-aligned in a field of at least [w] characters. *)
Definition rjust (w : nat) (s : string) : string :=
  spaces (w - String.length s)%nat +++ s.

(** [str(z)] for an [int]. *)
Definition str_int (z : Z) : string := NilZero.string_of_int (Z.to_int z).

Definition digit_char (d : Z) : ascii := ascii_of_nat (48 + Z.to_nat d)%nat.

(** The [n] low decimal digits of [k], most significant first. *)
Fixpoint low_digits (n : nat) (k : Z) : string :=
  match n with
  | O => ""
  | S n' => low_digits n' (k / 10) +++ String (digit_char (k mod 10)) ""
  end.

(** [k / 10^p] written with [p] digits after the point. *)
Definition decimal (p : nat) (k : Z) : string :=
  str_int (k / 10 ^ Z.of_nat p) +++
  match p with
  | O => ""
  | S _ => "." +++ low_digits p k
  end.

(** [n / d] rounded to the nearest integer, ties to even ([0 < d]). *)
Definition round_half_even (n d : Z) : Z :=
  let q := n / d in
  match 2 * (n mod d) ?= d with
  | Lt => q
  | Gt => q + 1
  | Eq => if Z.even q then q else q + 1
  end.

(** [m * 2^e * 10^p], correctly rounded to an integer. *)
Definition scaled (p : nat) (m : positive) (e : Z) : Z :=
  let n := Zpos m * 10 ^ Z.of_nat p in
  if 0 <=? e then n * 2 ^ e else round_half_even n (2 ^ (- e)).

Definition sign_str (s : bool) : string := if s then "-" else "".

(** The presentation [.pf] of a float: the exact value rounded to [p]
    decimals; the sign is that of the float, also when the digits are zero. *)
Definition float_fixed (p : nat) (f : spec_float) : string :=
  match f with
  | S754_nan => "nan"
  | S754_infinity s => sign_str s +++ "inf"
  | S754_zero s => sign_str s +++ decimal p 0
  | S754_finite s m e => sign_str s +++ decimal p (scaled p m e)
  end.

(** [format(v, '.pf')] before padding: an [int] or a [bool] is converted to
    a float first. *)
Definition fmt_fixed (p : nat) (v : value) : outcome string :=
  match v with
  | VFloat f => Ok (float_fixed p f)
  | VInt z => obind (float_of_int z) (fun f => Ok (float_fixed p f))
  | VBool b => obind (float_of_int (Z_of_bool b)) (fun f => Ok (float_fixed p f))
  | VStr _ => Raise (ValueError "Unknown format code 'f' for object of type 'str'")
  | VNone | VList _ | VDict _ => Raise TypeError
  end.

(** [format(v, '>w')] before padding: a specification without a type. *)
Definition fmt_plain (v : value) : outcome string :=
  match v with
  | VInt z => Ok (str_int z)
  | VBool b => Ok (str_int (Z_of_bool b))
  | VStr s => Ok s
  | VFloat _ => Unmodelled
  | VNone | VList _ | VDict _ => Raise TypeError
  end.

(** *** Comparison and division *)

(** [v > 0.0] *)
Definition py_gt_zero (v : value) : outcome bool :=
  match v with
  | VFloat f => Ok (SFltb fzero f)
  | VInt z => Ok (0 <? z)
  | VBool b => Ok b
  | VNone | VStr _ | VList _ | VDict _ => Raise TypeError
  end.

Definition float_is_zero (f : spec_float) : bool :=
  match f with
  | S754_zero _ => true
  | _ => false
  end.

(** An [int] as an unrounded mantissa with exponent 0. *)
Definition raw_int (z : Z) : spec_float :=
  match z with
  | Z0 => S754_zero false
  | Zpos m => S754_finite false m 0
  | Zneg m => S754_finite true m 0
  end.

(** [x / y] for two [int]s: the exact quotient, rounded once. *)
Definition int_truediv (x y : Z) : outcome value :=
  if y =? 0 then Raise ZeroDivisionError
  else match SFdiv prec emax (raw_int x) (raw_int y) with
       | S754_infinity _ => Raise OverflowError
       | f => Ok (VFloat f)
       end.

Definition float_truediv (f g : spec_float) : outcome value :=
  if float_is_zero g then Raise ZeroDivisionError
  else Ok (VFloat (SFdiv prec emax f g)).

Definition as_int (v : value) : option Z :=
  match v with
  | VInt z => Some z
  | VBool b => Some (Z_of_bool b)
  | _ => None
  end.

(** The float operand of a mixed operation. *)
Definition as_float (v : value) : outcome spec_float :=
  match v with
  | VFloat f => Ok f
  | VInt z => float_of_int z
  | VBool b => float_of_int (Z_of_bool b)
  | VNone | VStr _ | VList _ | VDict _ => Raise TypeError
  end.

Definition is_number (v : value) : bool :=
  match v with
  | VFloat _ | VInt _ | VBool _ => true
  | _ => false
  end.

(** [a / b] *)
Definition py_truediv (a b : value) : outcome value :=
  if is_number a && is_number b then
    match as_int a, as_int b with
    | Some x, Some y => int_truediv x y
    | _, _ =>
        obind (as_float a) (fun f =>
        obind (as_float b) (fun g => float_truediv f g))
    end
  else Raise TypeError.

(** *** [sorted] *)

Fixpoint insert_sorted (s : string) (l : list string) : list string :=
  match l with
  | [] => [s]
  | t :: l' => if String.leb s t then s :: l else t :: insert_sorted s l'
  end.

Definition sort_strings (l : list string) : list string :=
  fold_right insert_sorted [] l.

Fixpoint as_strs (l : list value) : option (list string) :=
  match l with
  | [] => Some []
  | VStr s :: l' => option_map (cons s) (as_strs l')
  | _ :: _ => None
  end.

Fixpoint insert_number (v : value) (l : list value) : list value :=
  match l with
  | [] => [v]
  | u :: l' => if value_leb v u then v :: l else u :: insert_number v l'
  end.

Definition sort_numbers (l : list value) : list value :=
  fold_right insert_number [] l.

(** [sorted(s)] for a set [s].  The elements are pairwise different, so
    under a total order the result does not depend on the order in which
    the set is traversed.  Strings are ordered character by character and
    numbers by value; a set of one element is returned as it is; elements
    of different kinds cannot be compared.  With a NaN the comparisons are
    not an order and the result depends on the traversal: this is left
    outside the model. *)
Definition sorted (s : list value) : outcome (list value) :=
  match as_strs s with
  | Some ss => Ok (map VStr (sort_strings ss))
  | None =>
      match s with
      | [_] => Ok s
      | _ =>
          if existsb is_nan s then Unmodelled
          else if forallb is_number s then Ok (sort_numbers s)
          else Raise TypeError
      end
  end.

(** [str(v)], as an f-string field without specification renders it. *)
Definition py_str (v : value) : outcome string :=
  match v with
  | VStr s => Ok s
  | VNone => Ok "None"
  | VBool b => Ok (if b then "True" else "False")
  | VInt z => Ok (str_int z)
  | VFloat _ | VList _ | VDict _ => Unmodelled
  end.

Notation "x <- m ;; k" := (obind m (fun x => k))
  (at level 61, m at next level, right associativity).
Notation "x <~ m ;; k" := (bind m (fun x => k))
  (at level 61, m at next level, right associativity).
Notation "m ;;; k" := (bind m (fun _ => k))
  (at level 61, right associativity).

End Py.

(** ** The program *)

Module BenchCompare.
Import Py.

(** What a run takes from outside: for a command-line argument [p], the text
    [str(Path(p))], and the result of opening the file at [Path(p)] and
    decoding it with [json.load] (a value, or the exception raised). *)
Record World := {
  path_str : string -> string;
  json_load : string -> outcome value
}.

(** Lines 7-12. *)
Definition load_file (w : World) (path : string) : outcome (list value) :=
  data <- json_load w path ;;
  match data with
  | VList l => Ok l
  | _ => Raise (ValueError (path_str w path +++ " is not a JSON array"))
  end.

(** Lines 15-19. *)
Definition format_row (label target : string) (item : value)
  : outcome string :=
  ns_per_iter <- py_get item "ns_per_iter" (VFloat fzero) ;;
  total_secs <- py_get item "total_secs" (VFloat fzero) ;;
  iters <- py_get item "iters" (VInt 0) ;;
  c3 <- fmt_fixed 3 ns_per_iter ;;
  c4 <- fmt_fixed 6 total_secs ;;
  c5 <- fmt_plain iters ;;
  Ok (ljust 10 label +++ " " +++ ljust 10 target +++ " " +++
      rjust 12 c3 +++ " " +++ rjust 12 c4 +++ " " +++ rjust 10 c5).

(** Lines 28-30: [items.extend(load_file(path))] for each path. *)
Fixpoint load_all (w : World) (paths : list string) (items : list value)
  : outcome (list value) :=
  match paths with
  | [] => Ok items
  | path :: paths' =>
      data <- load_file w path ;;
      load_all w paths' (items ++ data)
  end.

(** Line 32, the set comprehension. *)
Fixpoint scenario_set (items : list value) (s : list value)
  : outcome (list value) :=
  match items with
  | [] => Ok s
  | item :: items' =>
      k <- py_get item "scenario" (VStr "") ;;
      if hashable k then scenario_set items' (set_add s k)
      else Raise TypeError
  end.

Definition groups : Type := dict (K := value) (V := list value).

(** Line 33. *)
Definition empty_groups (scenarios : list value) : groups :=
  fold_left (fun d scenario => dict_set py_eq d scenario []) scenarios [].

(** Lines 34-35: [by_scenario[...]] raises [KeyError] on a missing key.  A
    NaN key is the very object stored in the set and is found by identity;
    the model does not track identity. *)
Fixpoint group_items (items : list value) (by_scenario : groups)
  : outcome groups :=
  match items with
  | [] => Ok by_scenario
  | item :: items' =>
      k <- py_get item "scenario" (VStr "") ;;
      if hashable k then
        if is_nan k then Unmodelled
        else
          match dict_get py_eq by_scenario k with
          | Some l =>
              group_items items' (dict_set py_eq by_scenario k (l ++ [item]))
          | None => Raise KeyError
          end
      else Raise TypeError
  end.

(** Lines 37-41. *)
Definition order : list (string * string) :=
  [("rust", "rust"); ("moonbit", "native"); ("moonbit", "wasm-gc")].

(** Line 45. *)
Definition column_header : string :=
  ljust 10 "impl" +++ " " +++ ljust 10 "target" +++ " " +++
  rjust 12 "ns/iter" +++ " " +++ rjust 12 "secs" +++ " " +++ rjust 10 "iters".

Definition table : Type := dict (K := value * value) (V := value).

(** Line 47, the dict comprehension: a later entry replaces an earlier one
    under an equal key. *)
Fixpoint build_lookup (entries : list value) (lookup : table)
  : outcome table :=
  match entries with
  | [] => Ok lookup
  | e :: entries' =>
      i <- py_get e "impl" VNone ;;
      t <- py_get e "target" VNone ;;
      if hashable i && hashable t
      then build_lookup entries' (dict_set pair_eq lookup (i, t) e)
      else Raise TypeError
  end.

(** [lookup.get((impl_name, target))], [None] when the key is missing. *)
Definition lookup_get (lookup : table) (impl_name target : string) : value :=
  match dict_get pair_eq lookup (VStr impl_name, VStr target) with
  | Some e => e
  | None => VNone
  end.

(** Lines 49-51, the body of the first loop over [order]. *)
Definition row_body (lookup : table) (p : string * string) : io unit :=
  let '(impl_name, target) := p in
  let item := lookup_get lookup impl_name target in
  if truthy item then
    row <~ lift (format_row impl_name target item) ;;
    print row
  else ret tt.

(** Lines 48-51. *)
Definition print_rows (lookup : table) : io unit :=
  for_each order (row_body lookup).

(** Lines 57-62, the body of the second loop over [order]. *)
Definition ratio_body (lookup : table) (rust_ns : value)
  (p : string * string) : io unit :=
  let '(impl_name, target) := p in
  if String.eqb impl_name "rust" then ret tt
  else
    let item := lookup_get lookup impl_name target in
    go <~ lift (if truthy item then py_gt_zero rust_ns else Ok false) ;;
    if go : bool then
      ns <~ lift (py_get item "ns_per_iter" (VFloat fzero)) ;;
      ratio <~ lift (py_truediv ns rust_ns) ;;
      r <~ lift (fmt_fixed 3 ratio) ;;
      print ("ratio vs rust (" +++ impl_name +++ "/" +++ target +++
             "): " +++ r +++ "x")
    else ret tt.

(** Lines 53-62. *)
Definition print_ratios (lookup : table) : io unit :=
  let rust_item := lookup_get lookup "rust" "rust" in
  if truthy rust_item then
    ns0 <~ lift (py_get rust_item "ns_per_iter" (VFloat fzero)) ;;
    let rust_ns := py_or ns0 (VFloat fzero) in
    for_each order (ratio_body lookup rust_ns)
  else ret tt.

(** Lines 44-63, the body of the loop over the scenarios. *)
Definition report_scenario (by_scenario : groups) (scenario : value)
  : io unit :=
  name <~ lift (py_str scenario) ;;
  print ("== " +++ name) ;;;
  print column_header ;;;
  entries <~ lift (if hashable scenario
                   then Ok (match dict_get py_eq by_scenario scenario with
                            | Some l => l
                            | None => []
                            end)
                   else Raise TypeError) ;;
  lookup <~ lift (build_lookup entries []) ;;
  print_rows lookup ;;;
  print_ratios lookup ;;;
  print "".

(** Lines 22-63.  [argv] is [sys.argv]; the result is the value returned,
    [None] when the function falls off its end. *)
Definition main (w : World) (argv : list string) : io (option Z) :=
  let paths := tl argv in
  match paths with
  | [] =>
      print "usage: bench_compare.py <json...>" ;;;
      ret (Some 2)
  | _ :: _ =>
      items <~ lift (load_all w paths []) ;;
      keys <~ lift (scenario_set items []) ;;
      scenarios <~ lift (sorted keys) ;;
      by_scenario <~ lift (group_items items (empty_groups scenarios)) ;;
      for_each scenarios (report_scenario by_scenario) ;;;
      ret None
  end.

(** Lines 66-67, [raise SystemExit(main())]: what was printed and the exit
    status of the process; an exception that nothing catches ends the
    process with status 1. *)
Definition run (w : World) (argv : list string) : list string * option Z :=
  let r := main w argv in
  (fst r,
   match snd r with
   | Ok None => Some 0
   | Ok (Some code) => Some code
   | Raise _ => Some 1
   | Unmodelled => None
   end).

End BenchCompare.


(** ** The specification's vocabulary *)

Module Report.
Import Py BenchCompare.

(** The field [k] of a record, [default] when the record has none. *)
Definition field (item : value) (k : string) (default : value) : value :=
  match item with
  | VDict d => match assoc k d with Some v => v | None => default end
  | _ => default
  end.

Definition is_dict (v : value) : bool :=
  match v with VDict _ => true | _ => false end.
Definition is_list (v : value) : bool :=
  match v with VList _ => true | _ => false end.
Definition is_str (v : value) : bool :=
  match v with VStr _ => true | _ => false end.
Definition is_float (v : value) : bool :=
  match v with VFloat _ => true | _ => false end.
Definition is_int (v : value) : bool :=
  match v with VInt _ => true | _ => false end.

(** The numeric fields of a Benchmark Record (section 3 of the
    specification): [ns_per_iter] and [total_secs] are floats and [iters] is
    an integer, each one possibly absent. *)
Definition typed_fields (item : value) : bool :=
  is_dict item &&
  is_float (field item "ns_per_iter" (VFloat fzero)) &&
  is_float (field item "total_secs" (VFloat fzero)) &&
  is_int (field item "iters" (VInt 0)).

(** A Benchmark Record: a mapping whose [scenario], [impl] and [target],
    when present, are strings, and whose numeric fields are typed. *)
Definition valid_record (item : value) : bool :=
  typed_fields item &&
  is_str (field item "scenario" (VStr "")) &&
  is_str (field item "impl" (VStr "")) &&
  is_str (field item "target" (VStr "")).

(** The key under which a record is grouped. *)
Definition scenario_key (item : value) : value :=
  field item "scenario" (VStr "").

Definition scenario_name (item : value) : string :=
  match scenario_key item with VStr s => s | _ => "" end.

Definition float_field (item : value) (k : string) : spec_float :=
  match field item k (VFloat fzero) with VFloat f => f | _ => fzero end.

Definition int_field (item : value) (k : string) : Z :=
  match field item k (VInt 0) with VInt z => z | _ => 0 end.

(** A record carries the pair (impl, target). *)
Definition has_pair (i t : string) (e : value) : bool :=
  py_eq (field e "impl" VNone) (VStr i) &&
  py_eq (field e "target" VNone) (VStr t).

(** The last record of [entries], in load order, that carries the pair. *)
Definition last_match (i t : string) (entries : list value) : option value :=
  find (has_pair i t) (rev entries).

(** A record can be entered in the lookup: it is a mapping and its [impl]
    and [target] can be hashed. *)
Definition keyed (e : value) : bool :=
  is_dict e && hashable (field e "impl" VNone) &&
  hashable (field e "target" VNone).

(** The row of section 4.3. *)
Definition row_text (label target : string) (item : value) : string :=
  ljust 10 label +++ " " +++ ljust 10 target +++ " " +++
  rjust 12 (float_fixed 3 (float_field item "ns_per_iter")) +++ " " +++
  rjust 12 (float_fixed 6 (float_field item "total_secs")) +++ " " +++
  rjust 10 (str_int (int_field item "iters")).

Definition ratio_prefix (i t : string) : string :=
  "ratio vs rust (" +++ i +++ "/" +++ t +++ "): ".

(** The ratio line of section 4.4, step 4. *)
Definition ratio_text (i t : string) (cand ref : value) : string :=
  "ratio vs rust (" +++ i +++ "/" +++ t +++ "): " +++
  float_fixed 3 (SFdiv prec emax (float_field cand "ns_per_iter")
                                 (float_field ref "ns_per_iter")) +++ "x".

(** The reference time is strictly positive. *)
Definition positive_ns (ref : value) : bool :=
  SFltb fzero (float_field ref "ns_per_iter").

Definition rows (entries : list value) : list string :=
  flat_map (fun p : string * string =>
              match last_match (fst p) (snd p) entries with
              | Some e => [row_text (fst p) (snd p) e]
              | None => []
              end) order.

Definition ratio_lines (entries : list value) : list string :=
  flat_map (fun p : string * string =>
              if String.eqb (fst p) "rust" then []
              else match last_match (fst p) (snd p) entries,
                         last_match "rust" "rust" entries with
                   | Some cand, Some ref =>
                       if positive_ns ref
                       then [ratio_text (fst p) (snd p) cand ref]
                       else []
                   | _, _ => []
                   end) order.

(** The block of one scenario. *)
Definition section_text (name : string) (entries : list value)
  : list string :=
  ["== " +++ name; column_header] ++ rows entries ++ ratio_lines entries
  ++ [""].

(** The strict order of [sorted] on strings. *)
Definition str_lt (a b : string) : Prop := String.compare a b = Lt.

(** The records of a group: those filed under the key [k], in load order. *)
Definition group_of (k : value) (items : list value) : list value :=
  filter (fun item => py_eq (scenario_key item) k) items.

(** What the first loop prints for a pair: the row of the record the lookup
    holds for it, nothing without one. *)
Definition row_slot (lookup : table) (i t : string) : list string :=
  match dict_get pair_eq lookup (VStr i, VStr t) with
  | Some e => [row_text i t e]
  | None => []
  end.

(** What the second loop prints for a pair other than (rust, rust): the
    ratio of the record the lookup holds for the pair to the record it
    holds for (rust, rust), when it holds both and the reference time is
    positive. *)
Definition ratio_slot (lookup : table) (i t : string) : list string :=
  match dict_get pair_eq lookup (VStr i, VStr t),
        dict_get pair_eq lookup (VStr "rust", VStr "rust") with
  | Some cand, Some ref =>
      if positive_ns ref then [ratio_text i t cand ref] else []
  | _, _ => []
  end.

(** The lines of [out] that are ratio lines of the pair. *)
Definition ratio_lines_of (i t : string) (out : list string) : list string :=
  filter (String.prefix (ratio_prefix i t)) out.

(** No two different elements of [l] are equal keys. *)
Definition separated (l : list value) : Prop :=
  forall a b, In a l -> In b l -> py_eq a b = true -> a = b.

(** The section headers among printed lines. *)
Definition headers (out : list string) : list string :=
  filter (String.prefix "== ") out.

End Report.

(** ** Sample data: the end-to-end example of the specification *)

Module Sample.
Import Py BenchCompare Report.

Definition f10 : spec_float := S754_finite false 5629499534213120 (-49).
Definition f20 : spec_float := S754_finite false 5629499534213120 (-48).
Definition f1e5 : spec_float := S754_finite false 5902958103587057 (-69).
Definition f2e5 : spec_float := S754_finite false 5902958103587057 (-68).

(** [{"scenario":"s1","impl":"rust","target":"rust","ns_per_iter":10.0,
     "total_secs":0.00001,"iters":1000}] *)
Definition rust_s1 : value :=
  VDict [("scenario", VStr "s1"); ("impl", VStr "rust");
         ("target", VStr "rust"); ("ns_per_iter", VFloat f10);
         ("total_secs", VFloat f1e5); ("iters", VInt 1000)].

(** [{"scenario":"s1","impl":"moonbit","target":"native","ns_per_iter":20.0,
     "total_secs":0.00002,"iters":1000}] *)
Definition moonbit_s1 : value :=
  VDict [("scenario", VStr "s1"); ("impl", VStr "moonbit");
         ("target", VStr "native"); ("ns_per_iter", VFloat f20);
         ("total_secs", VFloat f2e5); ("iters", VInt 1000)].

(** A later record of the same pair with the same measurements: the fields
    come in another order, with one more. *)
Definition moonbit_s1_again : value :=
  VDict [("impl", VStr "moonbit"); ("target", VStr "native");
         ("scenario", VStr "s1"); ("iters", VInt 1000);
         ("total_secs", VFloat f2e5); ("ns_per_iter", VFloat f20);
         ("host", VStr "ci")].

(** A directory with two well-formed files, one file holding a JSON object
    and one holding an array of numbers. *)
Definition disk : World :=
  {| path_str := fun p => p;
     json_load := fun p =>
       if String.eqb p "bench.json" then Ok (VList [rust_s1; moonbit_s1])
       else if String.eqb p "more.json" then Ok (VList [moonbit_s1_again])
       else if String.eqb p "object.json" then Ok (VDict [])
       else if String.eqb p "numbers.json" then Ok (VList [VInt 1])
       else Raise OSError |}.

End Sample.

(** ** More vocabulary and sample data *)

Module Terms.
Import Py BenchCompare Report.

(** Two record lists hold the same records, whatever their order. *)
Definition same_records (items1 items2 : list value) : Prop :=
  forall x, In x items1 <-> In x items2.

(** No two different records of [items] share a scenario and a pair of the
    fixed order. *)
Definition unambiguous (items : list value) : Prop :=
  forall a b p,
    In a items -> In b items -> In p order ->
    scenario_key a = scenario_key b ->
    has_pair (fst p) (snd p) a = true ->
    has_pair (fst p) (snd p) b = true ->
    a = b.

(** The record carries none of the pairs of the fixed order. *)
Definition off_order (e : value) : Prop :=
  forall p, In p order -> has_pair (fst p) (snd p) e = false.

(** A record can be filed under a name: it is a mapping whose [scenario],
    when present, is a string. *)
Definition named (e : value) : bool :=
  is_dict e && is_str (scenario_key e).

(** A record can be grouped: it is a mapping whose [scenario] can be hashed
    and is no NaN. *)
Definition groupable (e : value) : bool :=
  is_dict e && hashable (scenario_key e) && negb (is_nan (scenario_key e)).

(** The width of a row whose five columns hold the given texts. *)
Definition row_width (label target c3 c4 c5 : string) : nat :=
  (Nat.max 10 (String.length label) + Nat.max 10 (String.length target) +
   Nat.max 12 (String.length c3) + Nat.max 12 (String.length c4) +
   Nat.max 10 (String.length c5) + 4)%nat.

End Terms.

Module Fixtures.
Import Py BenchCompare Report.

(** A rust record whose [iters] is [null]. *)
Definition rust_null_iters : value :=
  VDict [("scenario", VStr "s1"); ("impl", VStr "rust");
         ("target", VStr "rust"); ("ns_per_iter", VFloat Sample.f10);
         ("iters", VNone)].

(** A rust record whose [ns_per_iter] is [null]. *)
Definition rust_null_time : value :=
  VDict [("scenario", VStr "s1"); ("impl", VStr "rust");
         ("target", VStr "rust"); ("ns_per_iter", VNone)].

(** A rust record whose [ns_per_iter] is a string. *)
Definition rust_text_time : value :=
  VDict [("scenario", VStr "s1"); ("impl", VStr "rust");
         ("target", VStr "rust"); ("ns_per_iter", VStr "fast")].

(** A moonbit record without [ns_per_iter]. *)
Definition moonbit_no_time : value :=
  VDict [("scenario", VStr "s1"); ("impl", VStr "moonbit");
         ("target", VStr "native"); ("iters", VInt 7)].

(** A record of an implementation outside the fixed order, with a
    malformed time. *)
Definition go_s1 : value :=
  VDict [("scenario", VStr "s1"); ("impl", VStr "go");
         ("target", VStr "native"); ("ns_per_iter", VStr "n/a")].

(** A record without [scenario]. *)
Definition rust_unnamed : value :=
  VDict [("impl", VStr "rust"); ("target", VStr "rust");
         ("ns_per_iter", VFloat Sample.f20)].

(** A record whose [scenario] is a number. *)
Definition numbered : value :=
  VDict [("scenario", VInt 1); ("impl", VStr "rust"); ("target", VStr "rust")].

(** A record whose [impl] is an array. *)
Definition rust_listed : value :=
  VDict [("scenario", VStr "s1"); ("impl", VList [VStr "rust"]);
         ("target", VStr "rust")].

(** A second (moonbit, native) record of [s1], with another time. *)
Definition moonbit_s1_faster : value :=
  VDict [("scenario", VStr "s1"); ("impl", VStr "moonbit");
         ("target", VStr "native"); ("ns_per_iter", VFloat Sample.f10);
         ("total_secs", VFloat Sample.f2e5); ("iters", VInt 1000)].

(** A rust record of another scenario whose [iters] is [null]. *)
Definition rust_s2_null_iters : value :=
  VDict [("scenario", VStr "s2"); ("impl", VStr "rust");
         ("target", VStr "rust"); ("iters", VNone)].

Definition disk : World :=
  {| path_str := fun p => p;
     json_load := fun p =>
       if String.eqb p "empty.json" then Ok (VList [])
       else if String.eqb p "partial.json"
            then Ok (VList [rust_s2_null_iters; Sample.rust_s1])
       else if String.eqb p "a.json" then Ok (VList [Sample.rust_s1])
       else if String.eqb p "b.json" then Ok (VList [Sample.moonbit_s1])
       else if String.eqb p "faster.json"
            then Ok (VList [moonbit_s1_faster])
       else if String.eqb p "unnamed.json"
            then Ok (VList [Sample.rust_s1; rust_unnamed])
       else if String.eqb p "mixed.json"
            then Ok (VList [Sample.rust_s1; numbered])
       else if String.eqb p "broken.json" then Raise JSONDecodeError
       else Raise OSError |}.

End Fixtures.

(** ** Properties *)

Module Properties.
Import Py BenchCompare Report Terms.

(** *** Keys *)

Lemma key_eqb_eq (x y : key) : key_eqb x y = true <-> x = y.
Proof.
  destruct x, y; simpl; split; intros H; try discriminate; try reflexivity.
  - apply String.eqb_eq in H. now subst.
  - injection H as ->. apply String.eqb_refl.
  - apply andb_true_iff in H. destruct H as [H1 H2].
    apply Z.eqb_eq in H1, H2. now subst.
  - injection H as -> ->. now rewrite !Z.eqb_refl.
  - apply Bool.eqb_prop in H. now subst.
  - injection H as ->. apply Bool.eqb_reflx.
Qed.

(** Two values are equal keys when they have the same exact value. *)
Lemma py_eq_iff (a b : value) :
  py_eq a b = true <-> exists x, key_of a = Some x /\ key_of b = Some x.
Proof.
  unfold py_eq. destruct (key_of a) as [x|], (key_of b) as [y|]; split;
    try discriminate; try (intros (z & H1 & H2); discriminate).
  - intros H. apply key_eqb_eq in H. subst. now exists y.
  - intros (z & H1 & H2). apply key_eqb_eq. congruence.
Qed.

Lemma py_eq_sym (a b : value) : py_eq a b = true -> py_eq b a = true.
Proof.
  rewrite !py_eq_iff. intros (x & H1 & H2). now exists x.
Qed.

Lemma py_eq_trans (a b c : value) :
  py_eq a b = true -> py_eq b c = true -> py_eq a c = true.
Proof.
  rewrite !py_eq_iff. intros (x & H1 & H2) (y & H3 & H4).
  exists x. split; [exact H1|congruence].
Qed.

(** Every hashable value but a NaN equals itself. *)
Lemma py_eq_refl (a : value) :
  hashable a = true -> is_nan a = false -> py_eq a a = true.
Proof.
  intros Hh Hn. apply py_eq_iff.
  destruct a as [| | |f| | |]; try discriminate; simpl; eauto.
  destruct f; try discriminate; eauto.
Qed.

Lemma num_key_not_str (neg : bool) (m : positive) (e : Z) (s : string) :
  num_key neg m e <> KStr s.
Proof. unfold num_key. now destruct (odd_part m e). Qed.

Lemma key_of_str (v : value) (s : string) :
  key_of v = Some (KStr s) <-> v = VStr s.
Proof.
  split; [|now intros ->].
  destruct v as [|b|z|f|t|l|d]; simpl; try discriminate.
  - destruct b; simpl; intros H; injection H as H; try discriminate;
      now apply num_key_not_str in H.
  - destruct z; simpl; intros H; injection H as H; try discriminate;
      now apply num_key_not_str in H.
  - destruct f; intros H; try discriminate; injection H as H;
      try discriminate.
    now apply num_key_not_str in H.
  - now intros [= ->].
Qed.

Lemma py_eq_str_r (v : value) (s : string) :
  py_eq v (VStr s) = true <-> v = VStr s.
Proof.
  rewrite py_eq_iff. simpl. split.
  - intros (x & H1 & [= <-]). now apply key_of_str.
  - intros ->. now exists (KStr s).
Qed.

Lemma py_eq_str_l (v : value) (s : string) :
  py_eq (VStr s) v = true <-> v = VStr s.
Proof.
  rewrite py_eq_iff. simpl. split.
  - intros (x & [= <-] & H2). now apply key_of_str.
  - intros ->. now exists (KStr s).
Qed.

Lemma pair_eq_sym (p q : value * value) :
  pair_eq p q = true -> pair_eq q p = true.
Proof.
  unfold pair_eq. rewrite !andb_true_iff. intros [H1 H2].
  split; now apply py_eq_sym.
Qed.

Lemma pair_eq_trans (p q r : value * value) :
  pair_eq p q = true -> pair_eq q r = true -> pair_eq p r = true.
Proof.
  unfold pair_eq. rewrite !andb_true_iff. intros [H1 H2] [H3 H4].
  split; eapply py_eq_trans; eassumption.
Qed.

(** *** Dictionaries under a symmetric and transitive equality of keys *)

Section DictFacts.
Context {K V : Type} (keq : K -> K -> bool).
Hypothesis keq_sym : forall a b, keq a b = true -> keq b a = true.
Hypothesis keq_trans :
  forall a b c, keq a b = true -> keq b c = true -> keq a c = true.

Lemma keq_left (a b q : K) : keq a b = true -> keq a q = keq b q.
Proof.
  intros H. destruct (keq a q) eqn:E1, (keq b q) eqn:E2; try reflexivity.
  - rewrite (keq_trans b a q (keq_sym _ _ H) E1) in E2. discriminate.
  - rewrite (keq_trans a b q H E2) in E1. discriminate.
Qed.

(** Reading after writing. *)
Lemma dict_get_set (d : dict) (k q : K) (v : V) :
  dict_get keq (dict_set keq d k v) q =
  if keq k q then Some v else dict_get keq d q.
Proof.
  induction d as [|[k0 v0] d IH]; simpl.
  - reflexivity.
  - destruct (keq k0 k) eqn:E0; simpl.
    + rewrite (keq_left k0 k q E0). now destruct (keq k q).
    + rewrite IH. destruct (keq k0 q) eqn:E1; [|reflexivity].
      destruct (keq k q) eqn:E2; [|reflexivity].
      rewrite (keq_trans k0 q k E1 (keq_sym _ _ E2)) in E0. discriminate.
Qed.

(** Equal keys read the same binding. *)
Lemma dict_get_compat (d : dict (V := V)) (k q : K) :
  keq k q = true -> dict_get keq d k = dict_get keq d q.
Proof.
  intros H. induction d as [|[k0 v0] d IH]; simpl; [reflexivity|].
  assert (E : keq k0 k = keq k0 q).
  { destruct (keq k0 k) eqn:E1, (keq k0 q) eqn:E2; try reflexivity.
    - rewrite (keq_trans k0 k q E1 H) in E2. discriminate.
    - rewrite (keq_trans k0 q k E2 (keq_sym _ _ H)) in E1. discriminate. }
  rewrite E. now destruct (keq k0 q).
Qed.
End DictFacts.

Lemma table_get_set (d : table) (k q : value * value) (e : value) :
  dict_get pair_eq (dict_set pair_eq d k e) q =
  if pair_eq k q then Some e else dict_get pair_eq d q.
Proof. apply dict_get_set; [exact pair_eq_sym|exact pair_eq_trans]. Qed.

Lemma groups_get_set (d : groups) (k q : value) (l : list value) :
  dict_get py_eq (dict_set py_eq d k l) q =
  if py_eq k q then Some l else dict_get py_eq d q.
Proof. apply dict_get_set; [exact py_eq_sym|exact py_eq_trans]. Qed.

Lemma groups_get_compat (d : groups) (k q : value) :
  py_eq k q = true -> dict_get py_eq d k = dict_get py_eq d q.
Proof. apply dict_get_compat; [exact py_eq_sym|exact py_eq_trans]. Qed.

(** *** The monad of printing computations *)

Lemma for_each_ok {A} (xs : list A) (body : A -> io unit) :
  (forall x, In x xs -> snd (body x) = Ok tt) ->
  for_each xs body = (flat_map (fun x => fst (body x)) xs, Ok tt).
Proof.
  induction xs as [|x xs IH]; intros H; simpl.
  - reflexivity.
  - unfold bind. rewrite (H x (or_introl eq_refl)).
    rewrite IH by (intros y Hy; apply H; now right).
    reflexivity.
Qed.

Lemma flat_map_nil {A B} (f : A -> list B) (l : list A) :
  (forall x, f x = []) -> flat_map f l = [].
Proof.
  intros H. induction l as [|a l IH]; simpl; [reflexivity|].
  now rewrite H, IH.
Qed.

Lemma bind_lift_ok {A B} (a : A) (k : A -> io B) :
  bind (lift (Ok a)) k = k a.
Proof. unfold bind, lift. simpl. now destruct (k a). Qed.

Lemma bind_print {B} (line : string) (k : unit -> io B) :
  bind (print line) k = (line :: fst (k tt), snd (k tt)).
Proof. reflexivity. Qed.

(** *** Records *)

Lemma py_get_field (item : value) (k : string) (default : value) :
  is_dict item = true -> py_get item k default = Ok (field item k default).
Proof. destruct item; simpl; intros H; try discriminate. reflexivity. Qed.

Lemma valid_typed (item : value) :
  valid_record item = true -> typed_fields item = true.
Proof.
  unfold valid_record. rewrite !andb_true_iff. tauto.
Qed.

Lemma typed_dict (item : value) :
  typed_fields item = true -> is_dict item = true.
Proof.
  unfold typed_fields. rewrite !andb_true_iff. tauto.
Qed.

Lemma field_str_default (item : value) (k s : string) :
  is_str (field item k (VStr s)) = true ->
  hashable (field item k VNone) = true.
Proof.
  destruct item; simpl; try reflexivity.
  destruct (assoc k d) as [v|]; [|reflexivity].
  now destruct v.
Qed.

Lemma valid_keyed (e : value) : valid_record e = true -> keyed e = true.
Proof.
  intros H. pose proof (typed_dict _ (valid_typed _ H)) as Hd.
  unfold valid_record in H. rewrite !andb_true_iff in H.
  destruct H as [[[_ _] Hi] Ht].
  unfold keyed. rewrite Hd. simpl.
  rewrite (field_str_default _ _ _ Hi), (field_str_default _ _ _ Ht).
  reflexivity.
Qed.

(** A record that carries a pair of strings has a field, so it is a
    non-empty mapping and counts as true. *)
Lemma has_pair_truthy (i t : string) (e : value) :
  is_dict e = true -> has_pair i t e = true -> truthy e = true.
Proof.
  destruct e; simpl; try discriminate. intros _.
  unfold has_pair. simpl. destruct d as [|b d]; [|reflexivity].
  simpl. discriminate.
Qed.

(** *** The lookup of a scenario *)

Lemma find_app {A} (f : A -> bool) (l1 l2 : list A) :
  find f (l1 ++ l2) =
  match find f l1 with Some x => Some x | None => find f l2 end.
Proof.
  induction l1 as [|a l1 IH]; simpl; [reflexivity|].
  now destruct (f a).
Qed.

Lemma last_match_cons (i t : string) (e : value) (entries : list value) :
  last_match i t (e :: entries) =
  match last_match i t entries with
  | Some x => Some x
  | None => if has_pair i t e then Some e else None
  end.
Proof.
  unfold last_match. simpl. rewrite find_app. simpl.
  now destruct (find (has_pair i t) (rev entries)).
Qed.

Lemma last_match_In (i t : string) (e : value) (entries : list value) :
  last_match i t entries = Some e ->
  In e entries /\ has_pair i t e = true.
Proof.
  unfold last_match. intros H. apply find_some in H.
  destruct H as [H1 H2]. split; [|exact H2]. now apply in_rev.
Qed.

Lemma build_lookup_spec (entries : list value) :
  Forall (fun e => keyed e = true) entries ->
  forall acc : table,
  exists lk, build_lookup entries acc = Ok lk /\
    forall i t, dict_get pair_eq lk (VStr i, VStr t) =
                match last_match i t entries with
                | Some e => Some e
                | None => dict_get pair_eq acc (VStr i, VStr t)
                end.
Proof.
  induction 1 as [|e entries He _ IH]; intros acc.
  - exists acc. split; reflexivity.
  - unfold keyed in He. rewrite !andb_true_iff in He.
    destruct He as [[Hd Hi] Ht].
    simpl. rewrite !(py_get_field _ _ _ Hd). simpl. rewrite Hi, Ht. simpl.
    destruct (IH (dict_set pair_eq acc
                    (field e "impl" VNone, field e "target" VNone) e))
      as (lk & Hlk & Hget).
    exists lk. split; [exact Hlk|].
    intros i t. rewrite Hget, table_get_set, last_match_cons.
    destruct (last_match i t entries); [reflexivity|].
    unfold has_pair, pair_eq. cbn [fst snd].
    now destruct (py_eq (field e "impl" VNone) (VStr i) &&
                  py_eq (field e "target" VNone) (VStr t)).
Qed.

(** Last write wins: the lookup answers with the last record carrying the
    pair, and with [None] when there is none. *)
Lemma lookup_last (entries : list value) :
  Forall (fun e => keyed e = true) entries ->
  exists lk, build_lookup entries [] = Ok lk /\
    forall i t, lookup_get lk i t =
                match last_match i t entries with
                | Some e => e
                | None => VNone
                end.
Proof.
  intros H. destruct (build_lookup_spec entries H []) as (lk & Hlk & Hget).
  exists lk. split; [exact Hlk|]. intros i t.
  unfold lookup_get. rewrite Hget.
  now destruct (last_match i t entries).
Qed.

(** *** Rows and ratio lines of well-typed records *)

Lemma format_row_typed (label target : string) (item : value) :
  typed_fields item = true ->
  format_row label target item = Ok (row_text label target item).
Proof.
  intros H. pose proof (typed_dict _ H) as Hd.
  unfold typed_fields in H. rewrite !andb_true_iff in H.
  destruct H as [[[_ Hns] Hts] Hit].
  unfold format_row. rewrite !(py_get_field _ _ _ Hd). cbn [obind].
  unfold row_text, float_field, int_field.
  destruct (field item "ns_per_iter" (VFloat fzero)); try discriminate.
  destruct (field item "total_secs" (VFloat fzero)); try discriminate.
  destruct (field item "iters" (VInt 0)); try discriminate.
  reflexivity.
Qed.

Lemma rust_ns_positive (ref : value) :
  typed_fields ref = true ->
  py_gt_zero (py_or (field ref "ns_per_iter" (VFloat fzero)) (VFloat fzero))
  = Ok (positive_ns ref).
Proof.
  intros H. unfold typed_fields in H. rewrite !andb_true_iff in H.
  destruct H as [[[_ Hns] _] _].
  unfold positive_ns, float_field.
  destruct (field ref "ns_per_iter" (VFloat fzero)); try discriminate.
  now destruct f.
Qed.

Lemma ratio_quotient (cand ref : value) :
  typed_fields cand = true -> typed_fields ref = true ->
  positive_ns ref = true ->
  py_truediv (field cand "ns_per_iter" (VFloat fzero))
             (py_or (field ref "ns_per_iter" (VFloat fzero)) (VFloat fzero))
  = Ok (VFloat (SFdiv prec emax (float_field cand "ns_per_iter")
                                (float_field ref "ns_per_iter"))).
Proof.
  intros Hc Hr. unfold typed_fields in Hc, Hr.
  rewrite !andb_true_iff in Hc, Hr.
  destruct Hc as [[[_ Hc] _] _]. destruct Hr as [[[_ Hr] _] _].
  unfold positive_ns, float_field.
  destruct (field cand "ns_per_iter" (VFloat fzero)); try discriminate.
  destruct (field ref "ns_per_iter" (VFloat fzero)); try discriminate.
  intros Hp. destruct f0; try discriminate; reflexivity.
Qed.

Section Scenario.
Variables (lk : table) (entries : list value).
Hypothesis lk_last :
  forall i t, lookup_get lk i t =
              match last_match i t entries with
              | Some e => e
              | None => VNone
              end.
Hypothesis entries_valid : Forall (fun e => valid_record e = true) entries.

Lemma match_valid (i t : string) (e : value) :
  last_match i t entries = Some e ->
  typed_fields e = true /\ truthy e = true.
Proof.
  intros H. apply last_match_In in H. destruct H as [Hin Hp].
  rewrite Forall_forall in entries_valid.
  pose proof (valid_typed _ (entries_valid _ Hin)) as Ht.
  split; [exact Ht|].
  apply (has_pair_truthy i t); [now apply typed_dict|exact Hp].
Qed.

Lemma row_body_valid (p : string * string) :
  row_body lk p =
  (match last_match (fst p) (snd p) entries with
   | Some e => [row_text (fst p) (snd p) e]
   | None => []
   end, Ok tt).
Proof.
  destruct p as [i t]. unfold row_body. cbn [fst snd]. rewrite lk_last.
  destruct (last_match i t entries) as [e|] eqn:E.
  - destruct (match_valid _ _ _ E) as [Ht Hy]. rewrite Hy.
    rewrite (format_row_typed _ _ _ Ht), bind_lift_ok. reflexivity.
  - reflexivity.
Qed.

Lemma print_rows_valid : print_rows lk = (rows entries, Ok tt).
Proof.
  unfold print_rows. rewrite for_each_ok.
  - unfold rows. f_equal. apply flat_map_ext. intros p.
    now rewrite row_body_valid.
  - intros p _. now rewrite row_body_valid.
Qed.

Lemma ratio_body_valid (ref : value) (p : string * string) :
  last_match "rust" "rust" entries = Some ref ->
  ratio_body lk (py_or (field ref "ns_per_iter" (VFloat fzero))
                       (VFloat fzero)) p =
  (if String.eqb (fst p) "rust" then []
   else match last_match (fst p) (snd p) entries with
        | Some cand =>
            if positive_ns ref
            then [ratio_text (fst p) (snd p) cand ref]
            else []
        | None => []
        end, Ok tt).
Proof.
  intros Er. destruct (match_valid _ _ _ Er) as [Hrt _].
  destruct p as [i t]. unfold ratio_body. cbn [fst snd].
  destruct (String.eqb i "rust"); [reflexivity|].
  rewrite lk_last.
  destruct (last_match i t entries) as [cand|] eqn:E.
  - destruct (match_valid _ _ _ E) as [Ht Hy]. rewrite Hy.
    rewrite (rust_ns_positive _ Hrt), bind_lift_ok.
    destruct (positive_ns ref) eqn:Hp; [|reflexivity].
    rewrite (py_get_field _ _ _ (typed_dict _ Ht)), bind_lift_ok.
    rewrite (ratio_quotient _ _ Ht Hrt Hp), bind_lift_ok.
    cbn [fmt_fixed]. rewrite bind_lift_ok. reflexivity.
  - reflexivity.
Qed.

Lemma print_ratios_valid : print_ratios lk = (ratio_lines entries, Ok tt).
Proof.
  unfold print_ratios. cbv zeta. rewrite lk_last.
  destruct (last_match "rust" "rust" entries) as [ref|] eqn:Er.
  - destruct (match_valid _ _ _ Er) as [Ht Hy]. rewrite Hy.
    rewrite (py_get_field _ _ _ (typed_dict _ Ht)), bind_lift_ok.
    rewrite for_each_ok.
    + unfold ratio_lines. f_equal. apply flat_map_ext. intros p.
      rewrite (ratio_body_valid ref p Er). cbn [fst].
      destruct (String.eqb (fst p) "rust"); [reflexivity|].
      rewrite Er.
      now destruct (last_match (fst p) (snd p) entries).
    + intros p _. now rewrite (ratio_body_valid ref p Er).
  - cbn [truthy]. unfold ratio_lines. rewrite flat_map_nil; [reflexivity|].
    intros p. rewrite Er.
    destruct (String.eqb (fst p) "rust"); [reflexivity|].
    now destruct (last_match (fst p) (snd p) entries).
Qed.
End Scenario.

(** The block printed for a scenario whose group holds well-typed records. *)
Lemma report_scenario_valid (by_scenario : groups) (name : string)
  (entries : list value) :
  dict_get py_eq by_scenario (VStr name) = Some entries ->
  Forall (fun e => valid_record e = true) entries ->
  report_scenario by_scenario (VStr name) = (section_text name entries, Ok tt).
Proof.
  intros Hget Hv.
  destruct (lookup_last entries) as (lk & Hlk & Hlast).
  { eapply Forall_impl; [|exact Hv]. intros e. apply valid_keyed. }
  unfold report_scenario. cbn [py_str hashable].
  rewrite bind_lift_ok, !bind_print, Hget, bind_lift_ok, Hlk, bind_lift_ok.
  unfold bind at 1. rewrite (print_rows_valid lk entries Hlast Hv).
  cbn [fst snd]. unfold bind at 1.
  rewrite (print_ratios_valid lk entries Hlast Hv).
  reflexivity.
Qed.

(** *** The order on strings and [sorted] *)

Lemma ascii_compare_trans (a b c : ascii) :
  Ascii.compare a b = Lt -> Ascii.compare b c = Lt -> Ascii.compare a c = Lt.
Proof.
  unfold Ascii.compare. rewrite !N.compare_lt_iff. lia.
Qed.

Lemma str_lt_trans (a b c : string) : str_lt a b -> str_lt b c -> str_lt a c.
Proof.
  unfold str_lt. revert b c.
  induction a as [|x a IH]; intros [|y b] [|z c]; simpl;
    try discriminate; try reflexivity.
  destruct (Ascii.compare x y) eqn:Exy; try discriminate;
    destruct (Ascii.compare y z) eqn:Eyz; try discriminate; intros H1 H2.
  - apply Ascii.compare_eq_iff in Exy, Eyz. subst.
    unfold Ascii.compare. rewrite N.compare_refl. eauto.
  - apply Ascii.compare_eq_iff in Exy. subst. now rewrite Eyz.
  - apply Ascii.compare_eq_iff in Eyz. subst. now rewrite Exy.
  - now rewrite (ascii_compare_trans _ _ _ Exy Eyz).
Qed.

Lemma str_compare_gt (a b : string) :
  String.compare a b = Gt -> str_lt b a.
Proof.
  unfold str_lt. intros H. rewrite String.compare_antisym, H. reflexivity.
Qed.

Lemma str_leb_lt (a b : string) :
  String.leb a b = true -> a <> b -> str_lt a b.
Proof.
  unfold String.leb, str_lt. intros H Hn.
  destruct (String.compare a b) eqn:E; try discriminate; [|reflexivity].
  apply String.compare_eq_iff in E. contradiction.
Qed.

Lemma str_leb_false (a b : string) :
  String.leb a b = false -> str_lt b a.
Proof.
  unfold String.leb. intros H. apply str_compare_gt.
  now destruct (String.compare a b).
Qed.

Lemma insert_sorted_In (s x : string) (l : list string) :
  In x (insert_sorted s l) <-> x = s \/ In x l.
Proof.
  induction l as [|t l IH]; simpl.
  - intuition.
  - destruct (String.leb s t); simpl; [intuition|].
    rewrite IH. intuition.
Qed.

Lemma insert_sorted_strict (s : string) (l : list string) :
  StronglySorted str_lt l -> ~ In s l ->
  StronglySorted str_lt (insert_sorted s l).
Proof.
  induction 1 as [|t l Hs IH Ht]; intros Hn; simpl.
  - constructor; constructor.
  - destruct (String.leb s t) eqn:E.
    + assert (Hst : str_lt s t).
      { apply str_leb_lt; [exact E|]. intros ->. apply Hn. now left. }
      constructor; [now constructor|].
      constructor; [exact Hst|].
      rewrite Forall_forall in Ht |- *. intros x Hx.
      eapply str_lt_trans; [exact Hst|]. now apply Ht.
    + constructor.
      * apply IH. intros Hin. apply Hn. now right.
      * rewrite Forall_forall in Ht |- *. intros x Hx.
        apply insert_sorted_In in Hx. destruct Hx as [->|Hx].
        -- now apply str_leb_false.
        -- now apply Ht.
Qed.

Lemma sort_strings_In (x : string) (l : list string) :
  In x (sort_strings l) <-> In x l.
Proof.
  induction l as [|s l IH]; simpl; [tauto|].
  rewrite insert_sorted_In, IH. intuition.
Qed.

Lemma sort_strings_strict (l : list string) :
  NoDup l -> StronglySorted str_lt (sort_strings l).
Proof.
  induction 1 as [|s l Hn _ IH]; simpl.
  - constructor.
  - apply insert_sorted_strict; [exact IH|].
    now rewrite sort_strings_In.
Qed.

Lemma str_lt_irrefl (a : string) : ~ str_lt a a.
Proof.
  unfold str_lt. intros H.
  pose proof (String.compare_antisym a a) as E. rewrite H in E. discriminate.
Qed.

Lemma strict_NoDup (l : list string) : StronglySorted str_lt l -> NoDup l.
Proof.
  induction 1 as [|s l _ IH Hs]; constructor; [|exact IH].
  intros Hin. rewrite Forall_forall in Hs.
  exact (str_lt_irrefl s (Hs s Hin)).
Qed.

(** *** The set of scenario keys *)

Lemma scenario_set_spec (items : list value) :
  forall s keys,
  scenario_set items s = Ok keys ->
  Forall (fun item => is_dict item = true /\
                      hashable (scenario_key item) = true) items /\
  keys = fold_left set_add (map scenario_key items) s.
Proof.
  induction items as [|item items IH]; intros s keys H; simpl in H.
  - injection H as <-. split; [constructor|reflexivity].
  - destruct item; try discriminate. cbn [py_get obind] in H.
    change (match assoc "scenario" d with
            | Some v => v
            | None => VStr ""
            end) with (scenario_key (VDict d)) in H.
    destruct (hashable (scenario_key (VDict d))) eqn:Hh; [|discriminate].
    apply IH in H. destruct H as [H1 H2]. split.
    + constructor; [now split|exact H1].
    + exact H2.
Qed.

Lemma scenario_set_ok (items : list value) :
  Forall (fun item => is_dict item = true /\
                      hashable (scenario_key item) = true) items ->
  forall s,
  scenario_set items s = Ok (fold_left set_add (map scenario_key items) s).
Proof.
  induction 1 as [|item items [Hd Hh] _ IH]; intros s; simpl.
  - reflexivity.
  - rewrite (py_get_field _ _ _ Hd). cbn [obind].
    fold (scenario_key item). rewrite Hh. apply IH.
Qed.

Lemma set_add_In (s : list value) (k x : value) :
  In x (set_add s k) -> In x s \/ x = k.
Proof.
  unfold set_add. destruct (existsb _ s); [now left|].
  rewrite in_app_iff. simpl. intuition.
Qed.

Lemma set_add_mono (s : list value) (k x : value) :
  In x s -> In x (set_add s k).
Proof.
  unfold set_add. destruct (existsb _ s); [tauto|].
  rewrite in_app_iff. now left.
Qed.

Lemma set_add_covers (s : list value) (k : value) :
  exists k', In k' (set_add s k) /\ (k' = k \/ py_eq k' k = true).
Proof.
  unfold set_add. destruct (existsb _ s) eqn:E.
  - apply existsb_exists in E. destruct E as (k' & Hin & He).
    exists k'. split; [exact Hin|now right].
  - exists k. split; [|now left]. rewrite in_app_iff. right. now left.
Qed.

Lemma set_add_separated (s : list value) (k : value) :
  separated s -> separated (set_add s k).
Proof.
  intros Hs. unfold set_add. destruct (existsb _ s) eqn:E; [exact Hs|].
  assert (Hno : forall a, In a s -> py_eq a k = false).
  { intros a Ha. destruct (py_eq a k) eqn:Ea; [|reflexivity].
    assert (existsb (fun k' => py_eq k' k) s = true); [|congruence].
    apply existsb_exists. now exists a. }
  intros a b Ha Hb Hab. rewrite in_app_iff in Ha, Hb. simpl in Ha, Hb.
  destruct Ha as [Ha|[<-|[]]], Hb as [Hb|[<-|[]]].
  - now apply Hs.
  - rewrite (Hno a Ha) in Hab. discriminate.
  - apply py_eq_sym in Hab. rewrite (Hno b Hb) in Hab. discriminate.
  - reflexivity.
Qed.

Lemma fold_set_add_mono (ks s : list value) (x : value) :
  In x s -> In x (fold_left set_add ks s).
Proof.
  revert s. induction ks as [|k ks IH]; intros s H; simpl; [exact H|].
  apply IH. now apply set_add_mono.
Qed.

Lemma fold_set_add_In (ks s : list value) (x : value) :
  In x (fold_left set_add ks s) -> In x s \/ In x ks.
Proof.
  revert s. induction ks as [|k ks IH]; intros s H; simpl in *; [now left|].
  apply IH in H. destruct H as [H|H]; [|now right; right].
  apply set_add_In in H. destruct H as [H| ->]; [now left|].
  right. now left.
Qed.

Lemma fold_set_add_covers (ks s : list value) (k : value) :
  In k ks ->
  exists k', In k' (fold_left set_add ks s) /\ (k' = k \/ py_eq k' k = true).
Proof.
  revert s. induction ks as [|k0 ks IH]; intros s H; simpl in *; [tauto|].
  destruct H as [-> | H]; [|now apply IH].
  destruct (set_add_covers s k) as (k' & Hin & He).
  exists k'. split; [|exact He]. now apply fold_set_add_mono.
Qed.

Lemma fold_set_add_separated (ks s : list value) :
  separated s -> separated (fold_left set_add ks s).
Proof.
  revert s. induction ks as [|k ks IH]; intros s Hs; simpl; [exact Hs|].
  apply IH. now apply set_add_separated.
Qed.

Lemma separated_nil : separated [].
Proof. intros a b []. Qed.

Lemma as_strs_map (l : list value) (ss : list string) :
  as_strs l = Some ss <-> l = map VStr ss.
Proof.
  revert ss. induction l as [|v l IH]; intros ss; simpl.
  - split.
    + intros H. injection H as <-. reflexivity.
    + destruct ss; [reflexivity|discriminate].
  - destruct v; try (split; [discriminate|destruct ss; discriminate]).
    destruct (as_strs l) as [ss'|] eqn:E; simpl; split.
    + intros H. injection H as <-. simpl. f_equal. now apply IH.
    + destruct ss as [|x ss]; [discriminate|]. simpl. intros H.
      injection H as -> H. apply IH in H. now injection H as ->.
    + discriminate.
    + destruct ss as [|x ss]; [discriminate|]. simpl. intros H.
      injection H as -> H. apply IH in H. discriminate.
Qed.

Lemma all_str_map (l : list value) :
  (forall x, In x l -> is_str x = true) -> exists ss, l = map VStr ss.
Proof.
  induction l as [|v l IH]; intros H.
  - now exists [].
  - destruct IH as [ss ->]; [intros x Hx; apply H; now right|].
    assert (Hv : is_str v = true) by (apply H; now left).
    destruct v; try discriminate. now exists (s :: ss).
Qed.

Lemma fold_set_add_NoDup (ks s : list value) :
  NoDup s ->
  (forall x, In x (fold_left set_add ks s) -> is_str x = true) ->
  NoDup (fold_left set_add ks s).
Proof.
  revert s. induction ks as [|k ks IH]; intros s Hs Hall; simpl in *.
  - exact Hs.
  - apply IH; [|exact Hall].
    unfold set_add. destruct (existsb _ s) eqn:E; [exact Hs|].
    assert (Hk : is_str k = true).
    { apply Hall. apply fold_set_add_mono. unfold set_add. rewrite E.
      rewrite in_app_iff. right. now left. }
    destruct k; try discriminate.
    apply NoDup_app.
    + exact Hs.
    + constructor; [intros []|constructor].
    + intros x Hx [<-|[]].
      assert (existsb (fun k' => py_eq k' (VStr s0)) s = true).
      { apply existsb_exists. exists (VStr s0). split; [exact Hx|].
        now apply py_eq_str_r. }
      congruence.
Qed.

(** *** [sorted] keeps the elements *)

Lemma insert_number_In (v x : value) (l : list value) :
  In x (insert_number v l) <-> x = v \/ In x l.
Proof.
  induction l as [|u l IH]; simpl.
  - intuition.
  - destruct (value_leb v u); simpl; [intuition|].
    rewrite IH. intuition.
Qed.

Lemma sort_numbers_In (x : value) (l : list value) :
  In x (sort_numbers l) <-> In x l.
Proof.
  induction l as [|v l IH]; simpl; [tauto|].
  rewrite insert_number_In, IH. intuition.
Qed.

Lemma sorted_In (s l : list value) :
  sorted s = Ok l -> forall x, In x l <-> In x s.
Proof.
  unfold sorted. destruct (as_strs s) as [ss|] eqn:E.
  - intros H x. injection H as <-. apply as_strs_map in E. subst s.
    rewrite !in_map_iff. split; intros (y & Hy & Hin); exists y;
      (split; [exact Hy|]).
    + now apply (proj1 (sort_strings_In _ _)).
    + now apply (proj2 (sort_strings_In _ _)).
  - destruct s as [|a [|b s]].
    + intros H. injection H as <-. tauto.
    + intros H. injection H as <-. tauto.
    + destruct (existsb is_nan (a :: b :: s)); [discriminate|].
      destruct (forallb is_number (a :: b :: s)); [|discriminate].
      intros H x. injection H as <-. exact (sort_numbers_In x (a :: b :: s)).
Qed.

(** *** The groups *)

Lemma empty_groups_get (scenarios : list value) (q : value) :
  forall d : groups,
  dict_get py_eq
    (fold_left (fun d scenario => dict_set py_eq d scenario []) scenarios d) q =
  if existsb (fun k => py_eq k q) scenarios then Some []
  else dict_get py_eq d q.
Proof.
  induction scenarios as [|k scenarios IH]; intros d; simpl.
  - reflexivity.
  - rewrite IH, groups_get_set.
    destruct (py_eq k q); simpl; [|reflexivity].
    now destruct (existsb (fun k0 => py_eq k0 q) scenarios).
Qed.

Lemma group_items_spec (items : list value) :
  forall d : groups,
  (forall item, In item items ->
     is_dict item = true /\
     hashable (scenario_key item) = true /\
     is_nan (scenario_key item) = false /\
     dict_get py_eq d (scenario_key item) <> None) ->
  exists d', group_items items d = Ok d' /\
    forall q, dict_get py_eq d' q =
              option_map (fun l => l ++ group_of q items)
                         (dict_get py_eq d q).
Proof.
  induction items as [|item items IH]; intros d H.
  - exists d. split; [reflexivity|]. intros q. simpl.
    destruct (dict_get py_eq d q); simpl; [|reflexivity].
    now rewrite app_nil_r.
  - destruct (H item (or_introl eq_refl)) as (Hd & Hh & Hn & Hx).
    simpl. rewrite (py_get_field _ _ _ Hd). cbn [obind].
    fold (scenario_key item). rewrite Hh, Hn.
    destruct (dict_get py_eq d (scenario_key item)) as [l|] eqn:El;
      [|congruence].
    destruct (IH (dict_set py_eq d (scenario_key item) (l ++ [item])))
      as (d' & Hd' & Hget).
    { intros item' Hin.
      destruct (H item' (or_intror Hin)) as (Hd2 & Hh2 & Hn2 & Hx2).
      repeat split; try assumption. rewrite groups_get_set.
      now destruct (py_eq (scenario_key item) (scenario_key item')). }
    exists d'. split; [exact Hd'|]. intros q.
    rewrite Hget, groups_get_set. unfold group_of. cbn [filter].
    destruct (py_eq (scenario_key item) q) eqn:E.
    + rewrite <- (groups_get_compat d _ _ E), El. simpl.
      now rewrite <- app_assoc.
    + reflexivity.
Qed.

Lemma group_items_no_raise (items : list value) :
  forall d : groups,
  (forall item, In item items ->
     is_dict item = true /\
     hashable (scenario_key item) = true /\
     (is_nan (scenario_key item) = false ->
      dict_get py_eq d (scenario_key item) <> None)) ->
  forall e, group_items items d <> Raise e.
Proof.
  induction items as [|item items IH]; intros d H e; [discriminate|].
  destruct (H item (or_introl eq_refl)) as (Hd & Hh & Hx).
  simpl. rewrite (py_get_field _ _ _ Hd). cbn [obind].
  fold (scenario_key item). rewrite Hh.
  destruct (is_nan (scenario_key item)); [discriminate|].
  destruct (dict_get py_eq d (scenario_key item)) as [l|] eqn:El.
  - apply IH. intros item' Hin.
    destruct (H item' (or_intror Hin)) as (Hd2 & Hh2 & Hx2).
    repeat split; try assumption. intros Hn. rewrite groups_get_set.
    destruct (py_eq (scenario_key item) (scenario_key item'));
      [discriminate|now apply Hx2].
  - now destruct Hx.
Qed.

(** The grouping over a list of scenarios that holds, for every record, a
    key equal to the record's. *)
Lemma grouping_core (items scenarios : list value) :
  Forall (fun item => is_dict item = true /\
                      hashable (scenario_key item) = true) items ->
  (forall item, In item items ->
     exists k, In k scenarios /\
               (k = scenario_key item \/ py_eq k (scenario_key item) = true)) ->
  (forall e, group_items items (empty_groups scenarios) <> Raise e) /\
  (Forall (fun item => is_nan (scenario_key item) = false) items ->
   exists by_scenario,
     group_items items (empty_groups scenarios) = Ok by_scenario /\
     forall q, dict_get py_eq by_scenario q =
               if existsb (fun k => py_eq k q) scenarios
               then Some (group_of q items) else None).
Proof.
  intros Hd Hk. rewrite Forall_forall in Hd.
  assert (Hcov : forall item, In item items ->
            is_nan (scenario_key item) = false ->
            existsb (fun k => py_eq k (scenario_key item)) scenarios = true).
  { intros item Hin Hn. destruct (Hk item Hin) as (k & Hks & He).
    apply existsb_exists. exists k. split; [exact Hks|].
    destruct He as [->|He]; [|exact He].
    apply py_eq_refl; [now apply Hd|exact Hn]. }
  unfold empty_groups. split.
  - apply group_items_no_raise. intros item Hin.
    destruct (Hd item Hin) as [H1 H2]. repeat split; try assumption.
    intros Hn. rewrite empty_groups_get, (Hcov item Hin Hn). discriminate.
  - intros Hnan. rewrite Forall_forall in Hnan.
    destruct (group_items_spec items
                (fold_left (fun d scenario => dict_set py_eq d scenario [])
                           scenarios [])) as (d' & Hd' & Hget).
    { intros item Hin. destruct (Hd item Hin) as [H1 H2].
      repeat split; try assumption; [now apply Hnan|].
      rewrite empty_groups_get, (Hcov item Hin (Hnan item Hin)).
      discriminate. }
    exists d'. split; [exact Hd'|]. intros q.
    rewrite Hget, empty_groups_get.
    now destruct (existsb (fun k => py_eq k q) scenarios).
Qed.

(** The set of the scenario keys when they are strings: the names of the
    records, each once. *)
Lemma string_keys_spec (items : list value) (ss : list string) :
  fold_left set_add (map scenario_key items) [] = map VStr ss ->
  NoDup ss /\
  (forall item, In item items ->
     exists x, scenario_key item = VStr x /\ In x ss) /\
  (forall x, In x ss ->
     exists item, In item items /\ scenario_key item = VStr x).
Proof.
  intros E. split; [|split].
  - apply (NoDup_map_inv VStr). rewrite <- E.
    apply fold_set_add_NoDup; [constructor|].
    intros x Hx. rewrite E in Hx. apply in_map_iff in Hx.
    now destruct Hx as (y & <- & _).
  - intros item Hin.
    destruct (fold_set_add_covers (map scenario_key items) []
                (scenario_key item)) as (k' & Hk' & He).
    { apply in_map. exact Hin. }
    rewrite E in Hk'. apply in_map_iff in Hk'. destruct Hk' as (x & <- & Hx).
    exists x. split; [|exact Hx].
    destruct He as [He|He]; [now symmetry|].
    now apply py_eq_str_l in He.
  - intros x Hx.
    assert (Hin : In (VStr x) (fold_left set_add (map scenario_key items) []))
      by (rewrite E; now apply in_map).
    apply fold_set_add_In in Hin. destruct Hin as [[]|Hin].
    apply in_map_iff in Hin. destruct Hin as (item & Hi & Hitem).
    now exists item.
Qed.


(** *** A whole run over well-typed records *)

Lemma valid_key_str (item : value) :
  valid_record item = true ->
  is_dict item = true /\ scenario_key item = VStr (scenario_name item).
Proof.
  intros H. split; [exact (typed_dict _ (valid_typed _ H))|].
  unfold valid_record in H. rewrite !andb_true_iff in H.
  destruct H as [[[_ Hs] _] _]. unfold scenario_name.
  fold (scenario_key item) in Hs. now destruct (scenario_key item).
Qed.

Lemma flat_map_map {A B C} (g : A -> B) (f : B -> list C) (l : list A) :
  flat_map f (map g l) = flat_map (fun a => f (g a)) l.
Proof.
  induction l as [|a l IH]; simpl; [reflexivity|]. now rewrite IH.
Qed.

Lemma flat_map_ext_in {A B} (f g : A -> list B) (l : list A) :
  (forall a, In a l -> f a = g a) -> flat_map f l = flat_map g l.
Proof.
  induction l as [|a l IH]; intros H; simpl; [reflexivity|].
  rewrite (H a (or_introl eq_refl)), IH; [reflexivity|].
  intros b Hb. apply H. now right.
Qed.

Lemma group_of_valid (k : value) (items : list value) :
  Forall (fun e => valid_record e = true) items ->
  Forall (fun e => valid_record e = true) (group_of k items).
Proof.
  rewrite !Forall_forall. intros H e He. apply filter_In in He.
  apply H. tauto.
Qed.

Lemma main_valid (w : World) (prog p : string) (ps : list string)
  (items : list value) :
  load_all w (p :: ps) [] = Ok items ->
  Forall (fun e => valid_record e = true) items ->
  exists names,
    StronglySorted str_lt names /\
    (forall x, In x names <->
               exists item, In item items /\ scenario_name item = x) /\
    main w (prog :: p :: ps) =
    (flat_map (fun s => section_text s (group_of (VStr s) items)) names,
     Ok None).
Proof.
  intros Hload Hv. pose proof Hv as Hv'. rewrite Forall_forall in Hv'.
  assert (Hk : Forall (fun item => is_dict item = true /\
                         hashable (scenario_key item) = true) items).
  { eapply Forall_impl; [|exact Hv]. intros e He.
    destruct (valid_key_str e He) as [Hd Hs]. split; [exact Hd|].
    now rewrite Hs. }
  pose proof (scenario_set_ok items Hk []) as Hset.
  set (keys := fold_left set_add (map scenario_key items) []) in *.
  assert (Hstr : forall x, In x keys -> is_str x = true).
  { intros x Hx. apply fold_set_add_In in Hx. destruct Hx as [[]|Hx].
    apply in_map_iff in Hx. destruct Hx as (e & <- & He).
    destruct (valid_key_str e (Hv' e He)) as [_ ->]. reflexivity. }
  destruct (all_str_map keys Hstr) as [ss Hss].
  assert (Hsorted : sorted keys = Ok (map VStr (sort_strings ss))).
  { unfold sorted. now rewrite (proj2 (as_strs_map keys ss) Hss). }
  destruct (string_keys_spec items ss Hss) as (Hnd & Hcover & Hback).
  set (names := sort_strings ss) in *.
  assert (Hin_names : forall x, In x names <-> In x ss)
    by (intros x; apply sort_strings_In).
  destruct (grouping_core items (map VStr names) Hk) as [_ Hgroup].
  { intros item Hin. destruct (Hcover item Hin) as (x & Hx & Hxs).
    exists (VStr x). split; [|now left].
    apply in_map. now apply Hin_names. }
  destruct Hgroup as (by_scenario & Hg & Hget).
  { rewrite Forall_forall. intros item Hin.
    destruct (valid_key_str item (Hv' item Hin)) as [_ ->]. reflexivity. }
  assert (Hget' : forall s, In s names ->
            dict_get py_eq by_scenario (VStr s) =
            Some (group_of (VStr s) items)).
  { intros s Hs. rewrite Hget.
    assert (E : existsb (fun k => py_eq k (VStr s)) (map VStr names) = true).
    { apply existsb_exists. exists (VStr s). split; [now apply in_map|].
      now apply py_eq_str_r. }
    now rewrite E. }
  exists names. split; [now apply sort_strings_strict|]. split.
  - intros x. rewrite Hin_names. split.
    + intros Hx. destruct (Hback x Hx) as (item & Hi & Hkey).
      exists item. split; [exact Hi|]. unfold scenario_name. now rewrite Hkey.
    + intros (item & Hi & <-). destruct (Hcover item Hi) as (y & Hy & Hin).
      unfold scenario_name. now rewrite Hy.
  - unfold main. cbn [tl]. rewrite Hload, bind_lift_ok, Hset, bind_lift_ok.
    rewrite Hsorted, bind_lift_ok, Hg, bind_lift_ok.
    rewrite for_each_ok.
    + unfold bind. cbn [fst snd ret]. rewrite app_nil_r. f_equal.
      rewrite flat_map_map. apply flat_map_ext_in. intros s Hs.
      now rewrite (report_scenario_valid _ _ _ (Hget' s Hs)
                     (group_of_valid _ _ Hv)).
    + intros k Hk'. apply in_map_iff in Hk'. destruct Hk' as (s & <- & Hs).
      now rewrite (report_scenario_valid _ _ _ (Hget' s Hs)
                     (group_of_valid _ _ Hv)).
Qed.

Lemma named_key_str (item : value) :
  named item = true ->
  is_dict item = true /\ scenario_key item = VStr (scenario_name item).
Proof.
  unfold named. rewrite andb_true_iff. intros [Hd Hs]. split; [exact Hd|].
  unfold scenario_name. now destruct (scenario_key item).
Qed.

(** A run over records that can be filed under names: the scenarios are
    the names in increasing order and each one has its group. *)
Lemma main_named (w : World) (prog p : string) (ps : list string)
  (items : list value) :
  load_all w (p :: ps) [] = Ok items ->
  Forall (fun e => named e = true) items ->
  exists names by_scenario,
    StronglySorted str_lt names /\
    (forall x, In x names <->
               exists item, In item items /\ scenario_name item = x) /\
    (forall s, In s names ->
       dict_get py_eq by_scenario (VStr s) = Some (group_of (VStr s) items)) /\
    main w (prog :: p :: ps) =
    bind (for_each (map VStr names) (report_scenario by_scenario))
         (fun _ => ret None).
Proof.
  intros Hload Hv. pose proof Hv as Hv'. rewrite Forall_forall in Hv'.
  assert (Hk : Forall (fun item => is_dict item = true /\
                         hashable (scenario_key item) = true) items).
  { eapply Forall_impl; [|exact Hv]. intros e He.
    destruct (named_key_str e He) as [Hd Hs]. split; [exact Hd|].
    now rewrite Hs. }
  pose proof (scenario_set_ok items Hk []) as Hset.
  set (keys := fold_left set_add (map scenario_key items) []) in *.
  assert (Hstr : forall x, In x keys -> is_str x = true).
  { intros x Hx. apply fold_set_add_In in Hx. destruct Hx as [[]|Hx].
    apply in_map_iff in Hx. destruct Hx as (e & <- & He).
    destruct (named_key_str e (Hv' e He)) as [_ ->]. reflexivity. }
  destruct (all_str_map keys Hstr) as [ss Hss].
  assert (Hsorted : sorted keys = Ok (map VStr (sort_strings ss))).
  { unfold sorted. now rewrite (proj2 (as_strs_map keys ss) Hss). }
  destruct (string_keys_spec items ss Hss) as (Hnd & Hcover & Hback).
  set (names := sort_strings ss) in *.
  assert (Hin_names : forall x, In x names <-> In x ss)
    by (intros x; apply sort_strings_In).
  destruct (grouping_core items (map VStr names) Hk) as [_ Hgroup].
  { intros item Hin. destruct (Hcover item Hin) as (x & Hx & Hxs).
    exists (VStr x). split; [|now left].
    apply in_map. now apply Hin_names. }
  destruct Hgroup as (by_scenario & Hg & Hget).
  { rewrite Forall_forall. intros item Hin.
    destruct (named_key_str item (Hv' item Hin)) as [_ ->]. reflexivity. }
  exists names, by_scenario. split; [now apply sort_strings_strict|].
  split; [|split].
  - intros x. rewrite Hin_names. split.
    + intros Hx. destruct (Hback x Hx) as (item & Hi & Hkey).
      exists item. split; [exact Hi|]. unfold scenario_name. now rewrite Hkey.
    + intros (item & Hi & <-). destruct (Hcover item Hi) as (y & Hy & Hin).
      unfold scenario_name. now rewrite Hy.
  - intros s Hs. rewrite Hget.
    assert (E : existsb (fun k => py_eq k (VStr s)) (map VStr names) = true).
    { apply existsb_exists. exists (VStr s). split; [now apply in_map|].
      now apply py_eq_str_r. }
    now rewrite E.
  - unfold main. cbn [tl]. rewrite Hload, bind_lift_ok, Hset, bind_lift_ok.
    now rewrite Hsorted, bind_lift_ok, Hg, bind_lift_ok.
Qed.

(** *** Field widths and decimals *)

Lemma append_length (s t : string) :
  String.length (s +++ t) = (String.length s + String.length t)%nat.
Proof.
  induction s as [|a s IH]; simpl; [reflexivity|]. now rewrite IH.
Qed.

Lemma append_assoc (s t u : string) : (s +++ t) +++ u = s +++ t +++ u.
Proof.
  induction s as [|a s IH]; simpl; [reflexivity|]. now rewrite IH.
Qed.

Lemma spaces_length (n : nat) : String.length (spaces n) = n.
Proof.
  induction n as [|n IH]; simpl; [reflexivity|]. now rewrite IH.
Qed.

(** A field of width [w] has [w] characters, more only when the text is
    longer; the text sits at its left or at its right end. *)
Lemma ljust_length (w : nat) (s : string) :
  String.length (ljust w s) = Nat.max w (String.length s).
Proof.
  unfold ljust. rewrite append_length, spaces_length. lia.
Qed.

Lemma rjust_length (w : nat) (s : string) :
  String.length (rjust w s) = Nat.max w (String.length s).
Proof.
  unfold rjust. rewrite append_length, spaces_length. lia.
Qed.

Lemma prefix_nil (s : string) : String.prefix "" s = true.
Proof. now destruct s. Qed.

Lemma prefix_append (p s : string) : String.prefix p (p +++ s) = true.
Proof.
  induction p as [|a p IH]; simpl; [apply prefix_nil|].
  destruct (ascii_dec a a); [exact IH|congruence].
Qed.

Lemma ljust_prefix (w : nat) (s : string) : String.prefix s (ljust w s) = true.
Proof. apply prefix_append. Qed.

Lemma low_digits_length (n : nat) (k : Z) : String.length (low_digits n k) = n.
Proof.
  revert k. induction n as [|n IH]; intros k; simpl; [reflexivity|].
  rewrite append_length, IH. simpl. lia.
Qed.

(** A finite float in the presentation [.pf], [p] not 0: a sign, the whole
    part, a point and exactly [p] digits. *)
Lemma float_fixed_decimals (p : nat) (f : spec_float) :
  match f with
  | S754_zero _ | S754_finite _ _ _ =>
      exists whole frac,
        float_fixed (S p) f = whole +++ "." +++ frac /\
        String.length frac = S p
  | _ => True
  end.
Proof.
  destruct f as [s|s| |s m e]; try exact I.
  - exists (sign_str s +++ str_int (0 / 10 ^ Z.of_nat (S p))),
           (low_digits (S p) 0).
    split; [|apply low_digits_length].
    unfold float_fixed, decimal. now rewrite append_assoc.
  - exists (sign_str s +++ str_int (scaled (S p) m e / 10 ^ Z.of_nat (S p))),
           (low_digits (S p) (scaled (S p) m e)).
    split; [|apply low_digits_length].
    unfold float_fixed, decimal. now rewrite append_assoc.
Qed.

(** *** Loading *)

Lemma load_all_app (w : World) (ps1 : list string) :
  Forall (fun q => exists l, load_file w q = Ok l) ps1 ->
  forall ps2 acc, exists loaded,
    load_all w (ps1 ++ ps2) acc = load_all w ps2 (acc ++ loaded).
Proof.
  induction 1 as [|q ps1 [l Hl] _ IH]; intros ps2 acc.
  - exists []. now rewrite app_nil_r.
  - simpl. rewrite Hl. cbn [obind].
    destruct (IH ps2 (acc ++ l)) as [loaded Hloaded].
    exists (l ++ loaded). now rewrite Hloaded, app_assoc.
Qed.

Lemma load_all_concat (w : World) (paths : list string)
  (files : list (list value)) :
  Forall2 (fun q l => load_file w q = Ok l) paths files ->
  forall acc, load_all w paths acc = Ok (acc ++ List.concat files).
Proof.
  induction 1 as [|q l paths files Hl _ IH]; intros acc; simpl.
  - now rewrite app_nil_r.
  - rewrite Hl. cbn [obind]. now rewrite IH, app_assoc.
Qed.

Lemma load_all_fails (w : World) (p : string) (e : exn)
  (paths : list string) :
  load_file w p = Raise e -> In p paths ->
  forall acc r, load_all w paths acc <> Ok r.
Proof.
  intros Hp. induction paths as [|q paths IH]; intros Hin acc r; [destruct Hin|].
  simpl. destruct (load_file w q) as [l| |] eqn:Hq; cbn [obind];
    try discriminate.
  destruct Hin as [->|Hin]; [congruence|]. now apply IH.
Qed.

Lemma scenario_set_rejects (items : list value) :
  Exists (fun v => is_dict v = false) items ->
  forall s, exists e,
    scenario_set items s = Raise e /\
    (e = AttributeError \/ e = TypeError) /\
    (Forall (fun v => hashable (scenario_key v) = true) items ->
     e = AttributeError).
Proof.
  induction 1 as [v items Hv|v items _ IH]; intros s.
  - exists AttributeError. split; [|split; [now left|reflexivity]].
    simpl. now destruct v.
  - destruct (is_dict v) eqn:Hd.
    + simpl. rewrite (py_get_field _ _ _ Hd). cbn [obind].
      fold (scenario_key v).
      destruct (hashable (scenario_key v)) eqn:Hh.
      * destruct (IH (set_add s (scenario_key v))) as (e & He & Hor & Hall).
        exists e. split; [exact He|]. split; [exact Hor|].
        intros HF. apply Hall. now inversion HF.
      * exists TypeError. split; [reflexivity|]. split; [now right|].
        intros HF. inversion HF. congruence.
    + exists AttributeError. split; [|split; [now left|reflexivity]].
      simpl. now destruct v.
Qed.

(** *** The last record of a pair *)

Lemma find_all_false {A} (f : A -> bool) (l : list A) :
  (forall x, In x l -> f x = false) -> find f l = None.
Proof.
  induction l as [|a l IH]; intros H; simpl; [reflexivity|].
  rewrite (H a (or_introl eq_refl)). apply IH. intros x Hx. apply H. now right.
Qed.

Lemma last_match_split (i t : string) (l1 l2 : list value) (e : value) :
  has_pair i t e = true ->
  Forall (fun e' => has_pair i t e' = false) l2 ->
  last_match i t (l1 ++ e :: l2) = Some e.
Proof.
  intros He Hl2. unfold last_match.
  rewrite rev_app_distr. simpl. rewrite <- app_assoc, find_app.
  assert (Hn : find (has_pair i t) (rev l2) = None).
  { apply find_all_false. intros x Hx. apply in_rev in Hx.
    rewrite Forall_forall in Hl2. now apply Hl2. }
  rewrite Hn. simpl. now rewrite He.
Qed.

Lemma last_match_none (i t : string) (entries : list value) :
  Forall (fun e => has_pair i t e = false) entries ->
  last_match i t entries = None.
Proof.
  intros H. unfold last_match. apply find_all_false. intros x Hx.
  apply in_rev in Hx. rewrite Forall_forall in H. now apply H.
Qed.

Lemma lookup_dict (entries : list value) :
  Forall (fun e => valid_record e = true) entries ->
  exists lk, build_lookup entries [] = Ok lk /\
    (forall i t, dict_get pair_eq lk (VStr i, VStr t) = last_match i t entries) /\
    (forall i t e, dict_get pair_eq lk (VStr i, VStr t) = Some e ->
                   format_row i t e = Ok (row_text i t e)).
Proof.
  intros Hv.
  assert (Hk : Forall (fun e => keyed e = true) entries).
  { eapply Forall_impl; [|exact Hv]. intros e. apply valid_keyed. }
  destruct (build_lookup_spec entries Hk []) as (lk & Hlk & Hget).
  assert (Hlast : forall i t,
             dict_get pair_eq lk (VStr i, VStr t) = last_match i t entries).
  { intros i t. rewrite Hget. now destruct (last_match i t entries). }
  exists lk. split; [exact Hlk|]. split; [exact Hlast|].
  intros i t e He. rewrite Hlast in He. apply last_match_In in He.
  rewrite Forall_forall in Hv. apply format_row_typed, valid_typed, Hv.
  tauto.
Qed.

(** *** The shape of the printed lines *)

Lemma filter_none {A} (f : A -> bool) (l : list A) :
  Forall (fun x => f x = false) l -> filter f l = [].
Proof.
  induction 1 as [|x l Hx _ IH]; simpl; [reflexivity|]. now rewrite Hx.
Qed.

Lemma rows_shape (entries : list value) :
  Forall (fun l => String.prefix "== " l = false /\
                   forall i t, String.prefix (ratio_prefix i t) l = false)
         (rows entries).
Proof.
  unfold rows, order. cbn [flat_map fst snd].
  destruct (last_match "rust" "rust" entries);
    destruct (last_match "moonbit" "native" entries);
    destruct (last_match "moonbit" "wasm-gc" entries);
    cbn [app]; repeat constructor.
Qed.

Lemma ratio_lines_shape (entries : list value) :
  Forall (fun l => String.prefix "== " l = false /\
                   String.prefix "ratio vs rust (" l = true)
         (ratio_lines entries).
Proof.
  unfold ratio_lines, order. cbn [flat_map fst snd String.eqb Ascii.eqb
                                    Bool.eqb].
  destruct (last_match "rust" "rust" entries) as [ref|];
    destruct (last_match "moonbit" "native" entries);
    destruct (last_match "moonbit" "wasm-gc" entries);
    cbn [app]; try destruct (positive_ns ref);
    repeat constructor; apply (prefix_append "ratio vs rust (").
Qed.

Lemma headers_section (name : string) (entries : list value) :
  headers (section_text name entries) = ["== " +++ name].
Proof.
  unfold headers, section_text. rewrite !filter_app.
  rewrite (filter_none _ (rows entries)), (filter_none _ (ratio_lines entries)).
  - cbn [filter app]. rewrite (prefix_append "== " name). reflexivity.
  - eapply Forall_impl; [|apply ratio_lines_shape]. now intros l [H _].
  - eapply Forall_impl; [|apply rows_shape]. now intros l [H _].
Qed.

Lemma ratio_prefix_header (i t name : string) :
  String.prefix (ratio_prefix i t) ("== " +++ name) = false.
Proof. reflexivity. Qed.

Lemma ratio_prefix_columns (i t : string) :
  String.prefix (ratio_prefix i t) column_header = false.
Proof. reflexivity. Qed.

Lemma ratio_prefix_blank (i t : string) :
  String.prefix (ratio_prefix i t) "" = false.
Proof. reflexivity. Qed.

Lemma ratio_prefix_native (cand ref : value) :
  String.prefix (ratio_prefix "moonbit" "native")
                (ratio_text "moonbit" "native" cand ref) = true.
Proof. apply (prefix_append (ratio_prefix "moonbit" "native")). Qed.

Lemma ratio_prefix_wasm (cand ref : value) :
  String.prefix (ratio_prefix "moonbit" "wasm-gc")
                (ratio_text "moonbit" "wasm-gc" cand ref) = true.
Proof. apply (prefix_append (ratio_prefix "moonbit" "wasm-gc")). Qed.

Lemma ratio_prefix_native_wasm (cand ref : value) :
  String.prefix (ratio_prefix "moonbit" "native")
                (ratio_text "moonbit" "wasm-gc" cand ref) = false.
Proof. reflexivity. Qed.

Lemma ratio_prefix_wasm_native (cand ref : value) :
  String.prefix (ratio_prefix "moonbit" "wasm-gc")
                (ratio_text "moonbit" "native" cand ref) = false.
Proof. reflexivity. Qed.

(** *** The claims *)

(** C1.  In the section of a scenario whose group holds well-typed
    records, and for a pair of the fixed order other than (rust, rust):
    the section has a ratio line for the pair exactly when the lookup
    holds a record for the pair and one for (rust, rust) and the
    [ns_per_iter] of the latter, 0.0 when absent, is strictly greater than
    0.0; the line is then printed once and reads
    [ratio vs rust (impl/target): q x], [q] being the quotient of the two
    [ns_per_iter] with 3 decimals. *)
Theorem ratio_line_iff (by_scenario : groups) (name : string)
  (entries : list value) (i t : string) :
  dict_get py_eq by_scenario (VStr name) = Some entries ->
  Forall (fun e => valid_record e = true) entries ->
  In (i, t) order ->
  (i, t) <> ("rust", "rust") ->
  exists lookup,
    build_lookup entries [] = Ok lookup /\
    ratio_lines_of i t (fst (report_scenario by_scenario (VStr name))) =
    match dict_get pair_eq lookup (VStr i, VStr t),
          dict_get pair_eq lookup (VStr "rust", VStr "rust") with
    | Some cand, Some ref =>
        if SFltb fzero (float_field ref "ns_per_iter")
        then ["ratio vs rust (" +++ i +++ "/" +++ t +++ "): " +++
              float_fixed 3 (SFdiv prec emax (float_field cand "ns_per_iter")
                                             (float_field ref "ns_per_iter"))
              +++ "x"]
        else []
    | _, _ => []
    end.
Proof.
  intros Hget Hv Hin Hne.
  destruct (lookup_dict entries Hv) as (lk & Hlk & Hlast & _).
  exists lk. split; [exact Hlk|].
  rewrite (report_scenario_valid by_scenario name entries Hget Hv), !Hlast.
  cbn [fst]. unfold ratio_lines_of, section_text. rewrite !filter_app.
  rewrite (filter_none _ (rows entries)).
  2:{ eapply Forall_impl; [|apply rows_shape]. intros l [_ H]. apply H. }
  assert (Hi : (i, t) = ("moonbit", "native") \/
               (i, t) = ("moonbit", "wasm-gc")).
  { destruct Hin as [E|[E|[E|[]]]]; [congruence|now left|now right]. }
  unfold ratio_lines, order. cbn [flat_map fst snd String.eqb Ascii.eqb
                                    Bool.eqb app].
  fold (positive_ns).
  destruct Hi as [E|E]; injection E as -> ->;
    destruct (last_match "rust" "rust" entries) as [ref|];
    destruct (last_match "moonbit" "native" entries) as [c1|];
    destruct (last_match "moonbit" "wasm-gc" entries) as [c2|];
    try destruct (positive_ns ref) eqn:Hp;
    unfold positive_ns in *; try rewrite Hp;
    cbn [filter app];
    rewrite ?ratio_prefix_header, ?ratio_prefix_columns, ?ratio_prefix_blank,
      ?ratio_prefix_native, ?ratio_prefix_wasm, ?ratio_prefix_native_wasm,
      ?ratio_prefix_wasm_native;
    reflexivity.
Qed.

Lemma ratio_line_iff_witness :
  exists lookup,
    build_lookup [Sample.rust_s1; Sample.moonbit_s1] [] = Ok lookup /\
    ratio_lines_of "moonbit" "native"
      (fst (report_scenario [(VStr "s1", [Sample.rust_s1; Sample.moonbit_s1])]
                            (VStr "s1"))) =
    match dict_get pair_eq lookup (VStr "moonbit", VStr "native"),
          dict_get pair_eq lookup (VStr "rust", VStr "rust") with
    | Some cand, Some ref =>
        if SFltb fzero (float_field ref "ns_per_iter")
        then ["ratio vs rust (" +++ "moonbit" +++ "/" +++ "native" +++ "): " +++
              float_fixed 3 (SFdiv prec emax (float_field cand "ns_per_iter")
                                             (float_field ref "ns_per_iter"))
              +++ "x"]
        else []
    | _, _ => []
    end.
Proof.
  apply (ratio_line_iff [(VStr "s1", [Sample.rust_s1; Sample.moonbit_s1])]
           "s1" [Sample.rust_s1; Sample.moonbit_s1] "moonbit" "native").
  - reflexivity.
  - repeat constructor.
  - right. left. reflexivity.
  - discriminate.
Defined.

(** C2.  For input files that load and hold well-typed benchmark records,
    the run completes and the section headers it prints are [== name] for
    the scenario names of the loaded records (the empty string for a record
    without [scenario]), in strictly increasing order: each name once. *)
Theorem section_headers (w : World) (prog p : string) (ps : list string)
  (items : list value) :
  load_all w (p :: ps) [] = Ok items ->
  Forall (fun e => valid_record e = true) items ->
  exists names,
    snd (main w (prog :: p :: ps)) = Ok None /\
    headers (fst (main w (prog :: p :: ps))) =
    map (fun s => "== " +++ s) names /\
    StronglySorted str_lt names /\
    NoDup names /\
    (forall x, In x names <->
               exists item, In item items /\ scenario_name item = x).
Proof.
  intros Hload Hv.
  destruct (main_valid w prog p ps items Hload Hv)
    as (names & Hsorted & Hnames & Hmain).
  exists names. rewrite Hmain. cbn [fst snd].
  split; [reflexivity|].
  split; [|split; [exact Hsorted|split; [now apply strict_NoDup|exact Hnames]]].
  clear. induction names as [|s names IH]; [reflexivity|].
  cbn [flat_map map]. unfold headers in *.
  rewrite filter_app, IH. fold (headers (section_text s (group_of (VStr s) items))).
  now rewrite headers_section.
Qed.

Lemma section_headers_witness :
  exists names,
    snd (main Sample.disk ["bench_compare.py"; "bench.json"]) = Ok None /\
    headers (fst (main Sample.disk ["bench_compare.py"; "bench.json"])) =
    map (fun s => "== " +++ s) names /\
    StronglySorted str_lt names /\
    NoDup names /\
    (forall x, In x names <->
               exists item, In item [Sample.rust_s1; Sample.moonbit_s1] /\
                            scenario_name item = x).
Proof.
  apply (section_headers Sample.disk "bench_compare.py" "bench.json" []
           [Sample.rust_s1; Sample.moonbit_s1]).
  - reflexivity.
  - repeat constructor.
Defined.

(** The end-to-end example of the specification, section 8, item 6. *)
Example end_to_end :
  run Sample.disk ["bench_compare.py"; "bench.json"] =
  (["== s1";
    "impl       target          ns/iter         secs      iters";
    "rust       rust             10.000     0.000010       1000";
    "moonbit    native           20.000     0.000020       1000";
    "ratio vs rust (moonbit/native): 2.000x";
    ""], Some 0).
Proof. reflexivity. Qed.

(** C3.  When the file at a path decodes to a JSON value that is not an
    array, loading it raises an error whose message starts with the path.
    A run that has this path among its arguments prints nothing and does
    not complete; if the paths before it loaded, the run ends with that
    very error and a non-zero status, whatever comes after. *)
Theorem non_array_aborts (w : World) (prog p : string) (v : value) :
  json_load w p = Ok v ->
  is_list v = false ->
  load_file w p =
  Raise (ValueError (path_str w p +++ " is not a JSON array")) /\
  (forall paths, In p paths ->
     fst (main w (prog :: paths)) = [] /\
     forall r, snd (main w (prog :: paths)) <> Ok r) /\
  (forall ps1 ps2,
     Forall (fun q => exists l, load_file w q = Ok l) ps1 ->
     main w (prog :: ps1 ++ p :: ps2) =
     ([], Raise (ValueError (path_str w p +++ " is not a JSON array"))) /\
     run w (prog :: ps1 ++ p :: ps2) = ([], Some 1)).
Proof.
  intros Hv Hl.
  assert (Hfile : load_file w p =
                  Raise (ValueError (path_str w p +++ " is not a JSON array"))).
  { unfold load_file. rewrite Hv. cbn [obind]. now destruct v. }
  split; [exact Hfile|]. split.
  - intros paths Hin. unfold main. cbn [tl].
    destruct paths as [|q qs]; [destruct Hin|].
    pose proof (load_all_fails w p _ (q :: qs) Hfile Hin []) as Hno.
    destruct (load_all w (q :: qs) []) as [items| |].
    + now destruct (Hno items).
    + split; [reflexivity|discriminate].
    + split; [reflexivity|discriminate].
  - intros ps1 ps2 Hok.
    assert (Hall : load_all w (ps1 ++ p :: ps2) [] =
              Raise (ValueError (path_str w p +++ " is not a JSON array"))).
    { destruct (load_all_app w ps1 Hok (p :: ps2) []) as [loaded ->].
      simpl. now rewrite Hfile. }
    assert (Hmain : main w (prog :: ps1 ++ p :: ps2) =
              ([], Raise (ValueError (path_str w p +++ " is not a JSON array")))).
    { unfold main. cbn [tl].
      destruct (ps1 ++ p :: ps2) as [|q qs] eqn:E.
      - now destruct ps1.
      - now rewrite Hall. }
    split; [exact Hmain|]. unfold run. now rewrite Hmain.
Qed.

Lemma non_array_aborts_witness :
  main Sample.disk ["bench_compare.py"; "bench.json"; "object.json";
                    "more.json"] =
  ([], Raise (ValueError "object.json is not a JSON array")).
Proof.
  refine (proj1 (proj2 (proj2 (non_array_aborts Sample.disk
            "bench_compare.py" "object.json" (VDict []) eq_refl eq_refl))
            ["bench.json"] ["more.json"] _)).
  constructor; [|constructor].
  exists [Sample.rust_s1; Sample.moonbit_s1]. reflexivity.
Defined.

(** C4.  For a record whose numeric fields, when present, have the types of
    the data model, [format_row] returns one line: the label and the target
    left-aligned in 10 characters, [ns_per_iter] right-aligned in 12 with 3
    decimals, [total_secs] right-aligned in 12 with 6 decimals and [iters]
    right-aligned in 10; an absent field counts as 0.0, 0.0 or 0, so a
    missing field never makes the formatting fail. *)
Theorem format_row_layout (label target : string) (item : value) :
  typed_fields item = true ->
  format_row label target item =
  Ok (ljust 10 label +++ " " +++ ljust 10 target +++ " " +++
      rjust 12 (float_fixed 3 (float_field item "ns_per_iter")) +++ " " +++
      rjust 12 (float_fixed 6 (float_field item "total_secs")) +++ " " +++
      rjust 10 (str_int (int_field item "iters"))).
Proof.
  intros H. rewrite (format_row_typed label target item H). reflexivity.
Qed.

Lemma format_row_layout_witness :
  typed_fields Sample.rust_s1 = true /\
  format_row "rust" "rust" Sample.rust_s1 =
  Ok "rust       rust             10.000     0.000010       1000".
Proof.
  split; [reflexivity|].
  exact (format_row_layout "rust" "rust" Sample.rust_s1 eq_refl).
Defined.

(** The row of a record without any field shows the three defaults. *)
Example format_row_defaults :
  format_row "moonbit" "wasm-gc" (VDict []) =
  Ok "moonbit    wasm-gc           0.000     0.000000          0".
Proof. reflexivity. Qed.

(** C5, as amended.  Without input paths the program prints the usage line
    and nothing else, exits with status 2 and touches no file (the outcome
    is the same whatever the files are); with one or more paths, no load
    error and only well-typed benchmark records loaded, the exit status is
    0. *)
Theorem exit_status (w : World) (prog p : string) (ps : list string)
  (items : list value) :
  load_all w (p :: ps) [] = Ok items ->
  Forall (fun e => valid_record e = true) items ->
  (forall w', run w' [prog] =
              (["usage: bench_compare.py <json...>"], Some 2)) /\
  snd (run w (prog :: p :: ps)) = Some 0.
Proof.
  intros Hload Hv. split; [reflexivity|].
  destruct (main_valid w prog p ps items Hload Hv) as (names & _ & _ & Hmain).
  unfold run. now rewrite Hmain.
Qed.

Lemma exit_status_witness :
  load_all Sample.disk ["bench.json"] [] =
  Ok [Sample.rust_s1; Sample.moonbit_s1] /\
  (forall w', run w' ["bench_compare.py"] =
              (["usage: bench_compare.py <json...>"], Some 2)) /\
  snd (run Sample.disk ["bench_compare.py"; "bench.json"]) = Some 0.
Proof.
  split; [reflexivity|].
  apply (exit_status Sample.disk "bench_compare.py" "bench.json" []
           [Sample.rust_s1; Sample.moonbit_s1]).
  - reflexivity.
  - repeat constructor.
Defined.

(** C5, as stated, fails: a file holding the array [[1]] loads without
    error, and the run then ends in an exception, with status 1. *)
Lemma exit_status_counterexample :
  load_all Sample.disk ["numbers.json"] [] = Ok [VInt 1] /\
  run Sample.disk ["bench_compare.py"; "numbers.json"] = ([], Some 1).
Proof. split; reflexivity. Qed.

(** C6.  In the section of a scenario whose group holds well-typed
    records, the header and the column header are followed by the data
    rows in the fixed order (rust, rust), (moonbit, native),
    (moonbit, wasm-gc): for each pair, the formatted row of the record the
    lookup holds for it, and nothing when the lookup has none.  What
    follows the rows are ratio lines and the closing blank line. *)
Theorem rows_follow_order (by_scenario : groups) (name : string)
  (entries : list value) :
  dict_get py_eq by_scenario (VStr name) = Some entries ->
  Forall (fun e => valid_record e = true) entries ->
  order = [("rust", "rust"); ("moonbit", "native"); ("moonbit", "wasm-gc")] /\
  exists lookup rest,
    build_lookup entries [] = Ok lookup /\
    (forall i t e, dict_get pair_eq lookup (VStr i, VStr t) = Some e ->
                   format_row i t e = Ok (row_text i t e)) /\
    report_scenario by_scenario (VStr name) =
    (["== " +++ name; column_header] ++
     row_slot lookup "rust" "rust" ++
     row_slot lookup "moonbit" "native" ++
     row_slot lookup "moonbit" "wasm-gc" ++ rest, Ok tt) /\
    Forall (fun l => l = "" \/ String.prefix "ratio vs rust (" l = true) rest.
Proof.
  intros Hget Hv. split; [reflexivity|].
  destruct (lookup_dict entries Hv) as (lk & Hlk & Hlast & Hrow).
  exists lk, (ratio_lines entries ++ [""]).
  split; [exact Hlk|]. split; [exact Hrow|]. split.
  - rewrite (report_scenario_valid by_scenario name entries Hget Hv).
    unfold section_text, rows, order, row_slot. cbn [flat_map fst snd].
    rewrite !Hlast, app_nil_r, <- !app_assoc. reflexivity.
  - apply Forall_app. split.
    + eapply Forall_impl; [|apply ratio_lines_shape]. intros l [_ H].
      now right.
    + constructor; [now left|constructor].
Qed.

Lemma rows_follow_order_witness :
  exists lookup rest,
    build_lookup [Sample.rust_s1; Sample.moonbit_s1] [] = Ok lookup /\
    (forall i t e, dict_get pair_eq lookup (VStr i, VStr t) = Some e ->
                   format_row i t e = Ok (row_text i t e)) /\
    report_scenario [(VStr "s1", [Sample.rust_s1; Sample.moonbit_s1])]
                    (VStr "s1") =
    (["== s1"; column_header] ++
     row_slot lookup "rust" "rust" ++
     row_slot lookup "moonbit" "native" ++
     row_slot lookup "moonbit" "wasm-gc" ++ rest, Ok tt) /\
    Forall (fun l => l = "" \/ String.prefix "ratio vs rust (" l = true) rest.
Proof.
  refine (proj2 (rows_follow_order
            [(VStr "s1", [Sample.rust_s1; Sample.moonbit_s1])] "s1"
            [Sample.rust_s1; Sample.moonbit_s1] _ _)).
  - reflexivity.
  - repeat constructor.
Defined.

(** C7.  The records of the input files are concatenated in the order of
    the command-line arguments, and the run works on that sequence.  For
    well-typed records, the section of every scenario is printed from the
    lookup of its group, in which a pair (impl, target) is bound to the
    last record, in load order, of that scenario that carries the pair, and
    to nothing when no record of the scenario carries it: the rows and the
    ratio lines of the section are those of the records so bound, the
    reference being the record bound to (rust, rust). *)
Theorem load_order_last_write_wins (w : World) (prog p : string)
  (ps : list string) (files : list (list value)) :
  Forall2 (fun q l => load_file w q = Ok l) (p :: ps) files ->
  Forall (fun e => valid_record e = true) (List.concat files) ->
  load_all w (p :: ps) [] = Ok (List.concat files) /\
  exists names by_scenario,
    (forall x, In x names <->
       exists item, In item (List.concat files) /\ scenario_name item = x) /\
    main w (prog :: p :: ps) =
    (flat_map (fun s => fst (report_scenario by_scenario (VStr s))) names,
     Ok None) /\
    forall s, In s names ->
      dict_get py_eq by_scenario (VStr s) =
      Some (group_of (VStr s) (List.concat files)) /\
      exists lookup,
        build_lookup (group_of (VStr s) (List.concat files)) [] = Ok lookup /\
        (forall i t before e after,
           List.concat files = before ++ e :: after ->
           scenario_name e = s ->
           has_pair i t e = true ->
           Forall (fun e' => scenario_name e' = s -> has_pair i t e' = false)
                  after ->
           dict_get pair_eq lookup (VStr i, VStr t) = Some e) /\
        (forall i t,
           Forall (fun e => scenario_name e = s -> has_pair i t e = false)
                  (List.concat files) ->
           dict_get pair_eq lookup (VStr i, VStr t) = None) /\
        report_scenario by_scenario (VStr s) =
        (["== " +++ s; column_header] ++
         row_slot lookup "rust" "rust" ++
         row_slot lookup "moonbit" "native" ++
         row_slot lookup "moonbit" "wasm-gc" ++
         ratio_slot lookup "moonbit" "native" ++
         ratio_slot lookup "moonbit" "wasm-gc" ++ [""], Ok tt).
Proof.
  intros Hfiles Hv.
  pose proof (load_all_concat w (p :: ps) files Hfiles []) as Hload.
  cbn [app] in Hload. split; [exact Hload|].
  set (items := List.concat files) in *.
  pose proof Hv as Hv'. rewrite Forall_forall in Hv'.
  assert (Hn : Forall (fun e => named e = true) items).
  { eapply Forall_impl; [|exact Hv]. intros e He.
    destruct (valid_key_str e He) as [Hd Hs]. unfold named.
    now rewrite Hd, Hs. }
  destruct (main_named w prog p ps items Hload Hn)
    as (names & by_scenario & _ & Hnames & Hget & Hmain).
  assert (Hsec : forall s, In s names ->
            report_scenario by_scenario (VStr s) =
            (section_text s (group_of (VStr s) items), Ok tt)).
  { intros s Hs. apply report_scenario_valid; [now apply Hget|].
    now apply group_of_valid. }
  assert (Hname : forall x s, In x items ->
            (py_eq (scenario_key x) (VStr s) = true <-> scenario_name x = s)).
  { intros x s Hx. destruct (valid_key_str x (Hv' x Hx)) as [_ Hk].
    rewrite py_eq_str_r, Hk. split; [now intros [= ->]|now intros ->]. }
  exists names, by_scenario. split; [exact Hnames|]. split.
  - rewrite Hmain, for_each_ok.
    + unfold bind. cbn [fst snd ret]. now rewrite app_nil_r, flat_map_map.
    + intros k Hk. apply in_map_iff in Hk. destruct Hk as (s & <- & Hs).
      now rewrite (Hsec s Hs).
  - intros s Hs. split; [now apply Hget|].
    destruct (lookup_dict (group_of (VStr s) items)
                (group_of_valid (VStr s) items Hv)) as (lk & Hlk & Hlast & _).
    exists lk. split; [exact Hlk|]. split; [|split].
    + intros i t before e after E He Hpair Hafter. rewrite Hlast.
      assert (Hin : forall x, In x after -> In x items).
      { intros x Hx. rewrite E. apply in_or_app. right. now right. }
      assert (Hine : In e items) by (rewrite E; apply in_elt).
      unfold group_of. rewrite E, filter_app. cbn [filter].
      rewrite (proj2 (Hname e s Hine) He).
      apply last_match_split; [exact Hpair|].
      rewrite Forall_forall in *. intros x Hx. apply filter_In in Hx.
      destruct Hx as [Hx Hk]. apply (Hafter x Hx).
      now apply (Hname x s (Hin x Hx)).
    + intros i t Hnone. rewrite Hlast. apply last_match_none.
      rewrite Forall_forall in *. intros x Hx. apply filter_In in Hx.
      destruct Hx as [Hx Hk]. apply (Hnone x Hx). now apply (Hname x s Hx).
    + rewrite (Hsec s Hs). f_equal.
      unfold section_text, rows, ratio_lines, order, row_slot, ratio_slot.
      cbn [flat_map fst snd String.eqb Ascii.eqb Bool.eqb].
      rewrite !Hlast, !app_nil_r. cbn [app]. rewrite <- !app_assoc.
      reflexivity.
Qed.

Lemma load_order_last_write_wins_witness :
  load_all Fixtures.disk ["a.json"; "b.json"; "faster.json"] [] =
  Ok (List.concat [[Sample.rust_s1]; [Sample.moonbit_s1];
                   [Fixtures.moonbit_s1_faster]]) /\
  exists names by_scenario,
    (forall x, In x names <->
       exists item,
         In item (List.concat [[Sample.rust_s1]; [Sample.moonbit_s1];
                               [Fixtures.moonbit_s1_faster]]) /\
         scenario_name item = x) /\
    main Fixtures.disk ["bench_compare.py"; "a.json"; "b.json"; "faster.json"]
    = (flat_map (fun s => fst (report_scenario by_scenario (VStr s))) names,
       Ok None) /\
    forall s, In s names ->
      dict_get py_eq by_scenario (VStr s) =
      Some (group_of (VStr s)
              (List.concat [[Sample.rust_s1]; [Sample.moonbit_s1];
                            [Fixtures.moonbit_s1_faster]])) /\
      exists lookup,
        build_lookup
          (group_of (VStr s)
             (List.concat [[Sample.rust_s1]; [Sample.moonbit_s1];
                           [Fixtures.moonbit_s1_faster]])) [] = Ok lookup /\
        (forall i t before e after,
           List.concat [[Sample.rust_s1]; [Sample.moonbit_s1];
                        [Fixtures.moonbit_s1_faster]] = before ++ e :: after ->
           scenario_name e = s ->
           has_pair i t e = true ->
           Forall (fun e' => scenario_name e' = s -> has_pair i t e' = false)
                  after ->
           dict_get pair_eq lookup (VStr i, VStr t) = Some e) /\
        (forall i t,
           Forall (fun e => scenario_name e = s -> has_pair i t e = false)
                  (List.concat [[Sample.rust_s1]; [Sample.moonbit_s1];
                                [Fixtures.moonbit_s1_faster]]) ->
           dict_get pair_eq lookup (VStr i, VStr t) = None) /\
        report_scenario by_scenario (VStr s) =
        (["== " +++ s; column_header] ++
         row_slot lookup "rust" "rust" ++
         row_slot lookup "moonbit" "native" ++
         row_slot lookup "moonbit" "wasm-gc" ++
         ratio_slot lookup "moonbit" "native" ++
         ratio_slot lookup "moonbit" "wasm-gc" ++ [""], Ok tt).
Proof.
  apply (load_order_last_write_wins Fixtures.disk "bench_compare.py" "a.json"
           ["b.json"; "faster.json"]
           [[Sample.rust_s1]; [Sample.moonbit_s1];
            [Fixtures.moonbit_s1_faster]]).
  - repeat constructor.
  - repeat constructor.
Defined.

(** The last of two records of (moonbit, native) is the one printed and
    compared: the same three files, with the last two exchanged. *)
Example last_duplicate_printed :
  run Fixtures.disk ["bench_compare.py"; "a.json"; "b.json"; "faster.json"] =
  (["== s1";
    "impl       target          ns/iter         secs      iters";
    "rust       rust             10.000     0.000010       1000";
    "moonbit    native           10.000     0.000020       1000";
    "ratio vs rust (moonbit/native): 1.000x";
    ""], Some 0) /\
  run Fixtures.disk ["bench_compare.py"; "a.json"; "faster.json"; "b.json"] =
  (["== s1";
    "impl       target          ns/iter         secs      iters";
    "rust       rust             10.000     0.000010       1000";
    "moonbit    native           20.000     0.000020       1000";
    "ratio vs rust (moonbit/native): 2.000x";
    ""], Some 0).
Proof. split; reflexivity. Qed.

(** C8.  [format_row] is a function of the label, the target and the three
    values read from the record: two records that agree on [ns_per_iter],
    [total_secs] and [iters] (defaults included) give the same row, whether
    a row or an exception. *)
Theorem format_row_deterministic (label target : string) (item1 item2 : value) :
  py_get item1 "ns_per_iter" (VFloat fzero) =
  py_get item2 "ns_per_iter" (VFloat fzero) ->
  py_get item1 "total_secs" (VFloat fzero) =
  py_get item2 "total_secs" (VFloat fzero) ->
  py_get item1 "iters" (VInt 0) = py_get item2 "iters" (VInt 0) ->
  format_row label target item1 = format_row label target item2.
Proof.
  intros H1 H2 H3. unfold format_row. now rewrite H1, H2, H3.
Qed.

Lemma format_row_deterministic_witness :
  format_row "moonbit" "native" Sample.moonbit_s1 =
  format_row "moonbit" "native" Sample.moonbit_s1_again.
Proof.
  exact (format_row_deterministic "moonbit" "native" Sample.moonbit_s1
           Sample.moonbit_s1_again eq_refl eq_refl eq_refl).
Defined.

(** C9.  Once the sorted list of scenarios has been computed from the
    records (line 32), the loop of lines 34-35 never raises: every
    [by_scenario[...]] finds a key equal to the one it looks for, since the
    scenarios are the keys of these very records.  When no scenario is a
    NaN the loop completes; the group of a scenario is then the sequence of
    the records filed under an equal key, in load order, and every record
    lies in the group of exactly one scenario. *)
Theorem grouping_never_fails (items keys scenarios : list value) :
  scenario_set items [] = Ok keys ->
  sorted keys = Ok scenarios ->
  (forall e, group_items items (empty_groups scenarios) <> Raise e) /\
  (Forall (fun item => is_nan (scenario_key item) = false) items ->
   exists by_scenario,
     group_items items (empty_groups scenarios) = Ok by_scenario /\
     (forall k, In k scenarios ->
        dict_get py_eq by_scenario k = Some (group_of k items)) /\
     (forall item, In item items ->
        exists! k, In k scenarios /\ In item (group_of k items))).
Proof.
  intros Hset Hsorted.
  destruct (scenario_set_spec items [] keys Hset) as [Hd ->].
  pose proof (sorted_In _ _ Hsorted) as Hin.
  assert (Hcover : forall item, In item items ->
            exists k, In k scenarios /\
              (k = scenario_key item \/ py_eq k (scenario_key item) = true)).
  { intros item Hi.
    destruct (fold_set_add_covers (map scenario_key items) []
                (scenario_key item)) as (k & Hk & He).
    { now apply in_map. }
    exists k. split; [now apply Hin|exact He]. }
  destruct (grouping_core items scenarios Hd Hcover) as [Hno Hgroup].
  split; [exact Hno|]. intros Hnan.
  destruct (Hgroup Hnan) as (by_scenario & Hg & Hget).
  assert (Hself : forall item, In item items ->
            py_eq (scenario_key item) (scenario_key item) = true).
  { intros item Hi. rewrite Forall_forall in Hd, Hnan.
    apply py_eq_refl; [now apply Hd|now apply Hnan]. }
  assert (Hfrom : forall k, In k scenarios ->
            exists item, In item items /\ scenario_key item = k).
  { intros k Hk. apply Hin in Hk. apply fold_set_add_In in Hk.
    destruct Hk as [[]|Hk]. apply in_map_iff in Hk.
    destruct Hk as (item & <- & Hi). now exists item. }
  assert (Hsep : separated scenarios).
  { intros a b Ha Hb. apply Hin in Ha, Hb.
    now apply (fold_set_add_separated (map scenario_key items) []
                 separated_nil). }
  exists by_scenario. split; [exact Hg|]. split.
  - intros k Hk. rewrite Hget.
    assert (E : existsb (fun k' => py_eq k' k) scenarios = true).
    { apply existsb_exists. exists k. split; [exact Hk|].
      destruct (Hfrom k Hk) as (item & Hi & <-). now apply Hself. }
    now rewrite E.
  - intros item Hi. destruct (Hcover item Hi) as (k & Hk & He).
    assert (Hkey : py_eq k (scenario_key item) = true).
    { destruct He as [->|He]; [now apply Hself|exact He]. }
    exists k. split.
    + split; [exact Hk|]. apply filter_In. split; [exact Hi|].
      now apply py_eq_sym.
    + intros k2 [Hk2 Hitem]. apply filter_In in Hitem.
      destruct Hitem as [_ He2]. apply Hsep; [exact Hk|exact Hk2|].
      now apply (py_eq_trans _ (scenario_key item)).
Qed.

Lemma grouping_never_fails_witness :
  exists by_scenario,
    group_items [Sample.rust_s1; Sample.moonbit_s1; VDict []]
                (empty_groups [VStr ""; VStr "s1"]) = Ok by_scenario /\
    (forall k, In k [VStr ""; VStr "s1"] ->
       dict_get py_eq by_scenario k =
       Some (group_of k [Sample.rust_s1; Sample.moonbit_s1; VDict []])) /\
    (forall item, In item [Sample.rust_s1; Sample.moonbit_s1; VDict []] ->
       exists! k, In k [VStr ""; VStr "s1"] /\
         In item (group_of k [Sample.rust_s1; Sample.moonbit_s1; VDict []])).
Proof.
  apply (grouping_never_fails [Sample.rust_s1; Sample.moonbit_s1; VDict []]
           [VStr "s1"; VStr ""] [VStr ""; VStr "s1"] eq_refl eq_refl).
  repeat constructor.
Defined.

(** Records filed under [1], [1.0] and [true] share one group, as the three
    keys are equal; the group is printed under the first of them. *)
Example grouping_equal_numbers :
  let one := VDict [("scenario", VInt 1)] in
  let one_float := VDict [("scenario", VFloat (S754_finite false 1 0))] in
  let two := VDict [("scenario", VInt 2)] in
  let yes := VDict [("scenario", VBool true)] in
  let items := [two; one; one_float; yes] in
  scenario_set items [] = Ok [VInt 2; VInt 1] /\
  sorted [VInt 2; VInt 1] = Ok [VInt 1; VInt 2] /\
  group_items items (empty_groups [VInt 1; VInt 2]) =
  Ok [(VInt 1, [one; one_float; yes]); (VInt 2, [two])].
Proof. repeat split. Qed.

(** C10.  The loader returns any JSON array as it is, whatever its
    elements; when a loaded element is not a JSON object the run raises
    while the scenario set is built, before anything is printed: the
    [.get] of the first such element raises [AttributeError], unless an
    earlier record has an unhashable scenario, which raises [TypeError]. *)
Theorem non_object_element_fails (w : World) (prog p : string)
  (ps : list string) (items : list value) :
  load_all w (p :: ps) [] = Ok items ->
  Exists (fun v => is_dict v = false) items ->
  (forall path l, json_load w path = Ok (VList l) -> load_file w path = Ok l) /\
  exists e,
    main w (prog :: p :: ps) = ([], Raise e) /\
    (e = AttributeError \/ e = TypeError) /\
    (Forall (fun v => hashable (scenario_key v) = true) items ->
     e = AttributeError).
Proof.
  intros Hload Hex. split.
  - intros path l Hl. unfold load_file. now rewrite Hl.
  - destruct (scenario_set_rejects items Hex []) as (e & He & Hor & Hall).
    exists e. split; [|split; [exact Hor|exact Hall]].
    unfold main. cbn [tl]. rewrite Hload, bind_lift_ok, He. reflexivity.
Qed.

Lemma non_object_element_fails_witness :
  exists e,
    main Sample.disk ["bench_compare.py"; "bench.json"; "numbers.json"] =
    ([], Raise e) /\
    (e = AttributeError \/ e = TypeError) /\
    (Forall (fun v => hashable (scenario_key v) = true)
            [Sample.rust_s1; Sample.moonbit_s1; VInt 1] ->
     e = AttributeError).
Proof.
  refine (proj2 (non_object_element_fails Sample.disk "bench_compare.py"
            "bench.json" ["numbers.json"]
            [Sample.rust_s1; Sample.moonbit_s1; VInt 1] _ _)).
  - reflexivity.
  - right. right. left. reflexivity.
Defined.

End Properties.

(** ** Properties beyond the specification *)

Module Coverage.
Import Py BenchCompare Report Terms Properties.

(** *** Sections whose printed records are well typed *)

Section Matched.
Variables (lk : table) (entries : list value).
Hypothesis lk_last :
  forall i t, lookup_get lk i t =
              match last_match i t entries with
              | Some e => e
              | None => VNone
              end.
Hypothesis entries_keyed : Forall (fun e => keyed e = true) entries.
Hypothesis matched_typed :
  forall p e, In p order ->
    last_match (fst p) (snd p) entries = Some e -> typed_fields e = true.

Lemma matched_ok (p : string * string) (e : value) :
  In p order ->
  last_match (fst p) (snd p) entries = Some e ->
  typed_fields e = true /\ truthy e = true.
Proof.
  intros Hp H. split; [now apply (matched_typed p)|].
  apply last_match_In in H. destruct H as [Hin Hpair].
  apply (has_pair_truthy (fst p) (snd p)); [|exact Hpair].
  rewrite Forall_forall in entries_keyed.
  pose proof (entries_keyed e Hin) as Hk. unfold keyed in Hk.
  rewrite !andb_true_iff in Hk. tauto.
Qed.

Lemma row_body_matched (p : string * string) :
  In p order ->
  row_body lk p =
  (match last_match (fst p) (snd p) entries with
   | Some e => [row_text (fst p) (snd p) e]
   | None => []
   end, Ok tt).
Proof.
  intros Hp. pose proof (matched_ok p) as Hok.
  destruct p as [i t]. unfold row_body. cbn [fst snd] in *. rewrite lk_last.
  destruct (last_match i t entries) as [e|] eqn:E.
  - destruct (Hok e Hp eq_refl) as [Ht Hy]. rewrite Hy.
    rewrite (format_row_typed _ _ _ Ht), bind_lift_ok. reflexivity.
  - reflexivity.
Qed.

Lemma print_rows_matched : print_rows lk = (rows entries, Ok tt).
Proof.
  unfold print_rows. rewrite for_each_ok.
  - unfold rows. f_equal. apply flat_map_ext_in. intros p Hp.
    now rewrite row_body_matched.
  - intros p Hp. now rewrite row_body_matched.
Qed.

Lemma rust_in_order : In ("rust", "rust") order.
Proof. now left. Qed.

Lemma ratio_body_matched (ref : value) (p : string * string) :
  In p order ->
  last_match "rust" "rust" entries = Some ref ->
  ratio_body lk (py_or (field ref "ns_per_iter" (VFloat fzero))
                       (VFloat fzero)) p =
  (if String.eqb (fst p) "rust" then []
   else match last_match (fst p) (snd p) entries with
        | Some cand =>
            if positive_ns ref
            then [ratio_text (fst p) (snd p) cand ref]
            else []
        | None => []
        end, Ok tt).
Proof.
  intros Hp Er.
  destruct (matched_ok ("rust", "rust") ref rust_in_order Er) as [Hrt _].
  pose proof (matched_ok p) as Hok.
  destruct p as [i t]. unfold ratio_body. cbn [fst snd] in *.
  destruct (String.eqb i "rust"); [reflexivity|].
  rewrite lk_last.
  destruct (last_match i t entries) as [cand|] eqn:E.
  - destruct (Hok cand Hp eq_refl) as [Ht Hy]. rewrite Hy.
    rewrite (rust_ns_positive _ Hrt), bind_lift_ok.
    destruct (positive_ns ref) eqn:Hpos; [|reflexivity].
    rewrite (py_get_field _ _ _ (typed_dict _ Ht)), bind_lift_ok.
    rewrite (ratio_quotient _ _ Ht Hrt Hpos), bind_lift_ok.
    cbn [fmt_fixed]. rewrite bind_lift_ok. reflexivity.
  - reflexivity.
Qed.

Lemma print_ratios_matched : print_ratios lk = (ratio_lines entries, Ok tt).
Proof.
  unfold print_ratios. cbv zeta. rewrite lk_last.
  destruct (last_match "rust" "rust" entries) as [ref|] eqn:Er.
  - destruct (matched_ok ("rust", "rust") ref rust_in_order Er) as [Ht Hy].
    rewrite Hy.
    rewrite (py_get_field _ _ _ (typed_dict _ Ht)), bind_lift_ok.
    rewrite for_each_ok.
    + unfold ratio_lines. f_equal. apply flat_map_ext_in. intros p Hp.
      rewrite (ratio_body_matched ref p Hp Er). cbn [fst].
      destruct (String.eqb (fst p) "rust"); [reflexivity|].
      rewrite Er.
      now destruct (last_match (fst p) (snd p) entries).
    + intros p Hp. now rewrite (ratio_body_matched ref p Hp Er).
  - cbn [truthy]. unfold ratio_lines. rewrite flat_map_nil; [reflexivity|].
    intros p. rewrite Er.
    destruct (String.eqb (fst p) "rust"); [reflexivity|].
    now destruct (last_match (fst p) (snd p) entries).
Qed.
End Matched.

(** The block of a scenario: only the records the lookup holds for the
    pairs of the fixed order need typed fields. *)
Lemma report_scenario_matched (by_scenario : groups) (name : string)
  (entries : list value) :
  dict_get py_eq by_scenario (VStr name) = Some entries ->
  Forall (fun e => keyed e = true) entries ->
  (forall p e, In p order ->
     last_match (fst p) (snd p) entries = Some e -> typed_fields e = true) ->
  report_scenario by_scenario (VStr name) = (section_text name entries, Ok tt).
Proof.
  intros Hget Hk Hm.
  destruct (lookup_last entries Hk) as (lk & Hlk & Hlast).
  unfold report_scenario. cbn [py_str hashable].
  rewrite bind_lift_ok, !bind_print, Hget, bind_lift_ok, Hlk, bind_lift_ok.
  unfold bind at 1. rewrite (print_rows_matched lk entries Hlast Hk Hm).
  cbn [fst snd]. unfold bind at 1.
  rewrite (print_ratios_matched lk entries Hlast Hk Hm).
  reflexivity.
Qed.

(** *** Records outside the fixed order *)

Lemma last_match_skip (i t : string) (l1 l2 : list value) (e : value) :
  has_pair i t e = false ->
  last_match i t (l1 ++ e :: l2) = last_match i t (l1 ++ l2).
Proof.
  intros H. unfold last_match. rewrite !rev_app_distr. simpl.
  rewrite <- app_assoc, !find_app. simpl. now rewrite H.
Qed.

Lemma section_text_ext (name : string) (es1 es2 : list value) :
  (forall p, In p order ->
     last_match (fst p) (snd p) es1 = last_match (fst p) (snd p) es2) ->
  section_text name es1 = section_text name es2.
Proof.
  intros H. pose proof (H ("rust", "rust") rust_in_order) as Hr.
  cbn [fst snd] in Hr.
  assert (Hrows : rows es1 = rows es2).
  { unfold rows. apply flat_map_ext_in. intros p Hp. now rewrite (H p Hp). }
  assert (Hratios : ratio_lines es1 = ratio_lines es2).
  { unfold ratio_lines. rewrite Hr. apply flat_map_ext_in. intros p Hp.
    now rewrite (H p Hp). }
  unfold section_text. now rewrite Hrows, Hratios.
Qed.

(** X1.  A record that carries none of the three pairs of the fixed order
    is never looked at: with it or without it in the group, the section is
    the same and completes, even if the numeric fields of that record are
    malformed. *)
Theorem unknown_pairs_ignored (by1 by2 : groups) (name : string)
  (l1 l2 : list value) (e : value) :
  dict_get py_eq by1 (VStr name) = Some (l1 ++ e :: l2) ->
  dict_get py_eq by2 (VStr name) = Some (l1 ++ l2) ->
  Forall (fun x => valid_record x = true) (l1 ++ l2) ->
  keyed e = true ->
  off_order e ->
  report_scenario by1 (VStr name) = report_scenario by2 (VStr name) /\
  snd (report_scenario by1 (VStr name)) = Ok tt.
Proof.
  intros H1 H2 Hv Hk Hoff.
  assert (Hsame : forall p, In p order ->
            last_match (fst p) (snd p) (l1 ++ e :: l2) =
            last_match (fst p) (snd p) (l1 ++ l2)).
  { intros p Hp. apply last_match_skip. now apply Hoff. }
  assert (Hkeyed : Forall (fun x => keyed x = true) (l1 ++ e :: l2)).
  { apply Forall_app in Hv. destruct Hv as [Hv1 Hv2]. apply Forall_app. split.
    - eapply Forall_impl; [|exact Hv1]. intros x. apply valid_keyed.
    - constructor; [exact Hk|].
      eapply Forall_impl; [|exact Hv2]. intros x. apply valid_keyed. }
  assert (Hm : forall p x, In p order ->
            last_match (fst p) (snd p) (l1 ++ e :: l2) = Some x ->
            typed_fields x = true).
  { intros p x Hp Hx. rewrite (Hsame p Hp) in Hx.
    apply last_match_In in Hx. rewrite Forall_forall in Hv.
    apply valid_typed, Hv. tauto. }
  rewrite (report_scenario_matched by1 name _ H1 Hkeyed Hm).
  rewrite (report_scenario_valid by2 name _ H2 Hv).
  split; [|reflexivity]. f_equal. now apply section_text_ext.
Qed.

Lemma unknown_pairs_ignored_witness :
  report_scenario
    [(VStr "s1", [Sample.rust_s1; Fixtures.go_s1; Sample.moonbit_s1])]
    (VStr "s1") =
  report_scenario [(VStr "s1", [Sample.rust_s1; Sample.moonbit_s1])]
                  (VStr "s1") /\
  snd (report_scenario
         [(VStr "s1", [Sample.rust_s1; Fixtures.go_s1; Sample.moonbit_s1])]
         (VStr "s1")) = Ok tt.
Proof.
  apply (unknown_pairs_ignored
           [(VStr "s1", [Sample.rust_s1; Fixtures.go_s1; Sample.moonbit_s1])]
           [(VStr "s1", [Sample.rust_s1; Sample.moonbit_s1])]
           "s1" [Sample.rust_s1] [Sample.moonbit_s1] Fixtures.go_s1).
  - reflexivity.
  - reflexivity.
  - repeat constructor.
  - reflexivity.
  - intros p [<-|[<-|[<-|[]]]]; reflexivity.
Defined.

(** *** The lookup and the tests [if item] *)

Lemma build_lookup_keyed (entries : list value) :
  forall acc lk, build_lookup entries acc = Ok lk ->
  Forall (fun e => keyed e = true) entries.
Proof.
  induction entries as [|e entries IH]; intros acc lk H; [constructor|].
  simpl in H. destruct (is_dict e) eqn:Hd.
  - rewrite !(py_get_field _ _ _ Hd) in H. cbn [obind] in H.
    destruct (hashable (field e "impl" VNone) &&
              hashable (field e "target" VNone)) eqn:Hh; [|discriminate].
    constructor; [|now apply IH in H].
    unfold keyed. rewrite Hd. cbn [andb]. exact Hh.
  - destruct e; discriminate.
Qed.

(** What a lookup that was built answers. *)
Lemma built_lookup (entries : list value) (lk : table) :
  build_lookup entries [] = Ok lk ->
  Forall (fun e => keyed e = true) entries /\
  (forall i t, dict_get pair_eq lk (VStr i, VStr t) = last_match i t entries) /\
  (forall i t, lookup_get lk i t =
               match last_match i t entries with
               | Some e => e
               | None => VNone
               end).
Proof.
  intros H. pose proof (build_lookup_keyed entries [] lk H) as Hk.
  destruct (build_lookup_spec entries Hk []) as (lk' & Hlk' & Hget).
  assert (lk' = lk) by congruence. subst lk'.
  assert (Hd : forall i t,
             dict_get pair_eq lk (VStr i, VStr t) = last_match i t entries).
  { intros i t. rewrite Hget. now destruct (last_match i t entries). }
  split; [exact Hk|]. split; [exact Hd|].
  intros i t. unfold lookup_get. now rewrite Hd.
Qed.

Lemma matched_truthy (entries : list value) (i t : string) (e : value) :
  Forall (fun e => keyed e = true) entries ->
  last_match i t entries = Some e -> is_dict e = true /\ truthy e = true.
Proof.
  intros Hk H. apply last_match_In in H. destruct H as [Hin Hp].
  rewrite Forall_forall in Hk. pose proof (Hk e Hin) as Hke.
  unfold keyed in Hke. rewrite !andb_true_iff in Hke.
  destruct Hke as [[Hd _] _]. split; [exact Hd|].
  now apply (has_pair_truthy i t).
Qed.

(** X2.  In a lookup that was built, the tests [if item] and [if rust_item]
    succeed exactly when the lookup holds a record for the pair: a record
    found under a pair of strings has at least its [impl] and [target], so
    it is never an empty mapping that would count as false. *)
Theorem found_record_is_true (entries : list value) (lk : table)
  (i t : string) :
  build_lookup entries [] = Ok lk ->
  (truthy (lookup_get lk i t) = true <->
   exists e, dict_get pair_eq lk (VStr i, VStr t) = Some e) /\
  (truthy (lookup_get lk i t) = false <->
   dict_get pair_eq lk (VStr i, VStr t) = None).
Proof.
  intros H. destruct (built_lookup entries lk H) as (Hk & Hd & Hg).
  rewrite Hg, Hd.
  destruct (last_match i t entries) as [e|] eqn:E.
  - destruct (matched_truthy entries i t e Hk E) as [_ Hy]. rewrite Hy.
    split; split; try discriminate; eauto.
  - simpl. split; split; try discriminate; try reflexivity.
    intros [e He]. discriminate.
Qed.

Lemma found_record_is_true_witness :
  (truthy (lookup_get [((VNone, VNone), VDict []);
                       ((VStr "rust", VStr "rust"), Sample.rust_s1)]
                      "rust" "rust") = true <->
   exists e, dict_get pair_eq
               [((VNone, VNone), VDict []);
                ((VStr "rust", VStr "rust"), Sample.rust_s1)]
               (VStr "rust", VStr "rust") = Some e) /\
  (truthy (lookup_get [((VNone, VNone), VDict []);
                       ((VStr "rust", VStr "rust"), Sample.rust_s1)]
                      "rust" "rust") = false <->
   dict_get pair_eq
     [((VNone, VNone), VDict []);
      ((VStr "rust", VStr "rust"), Sample.rust_s1)]
     (VStr "rust", VStr "rust") = None).
Proof.
  exact (found_record_is_true [VDict []; Sample.rust_s1]
           [((VNone, VNone), VDict []);
            ((VStr "rust", VStr "rust"), Sample.rust_s1)]
           "rust" "rust" eq_refl).
Defined.

(** *** A report cut short *)

(** X3.  The header and the column header of a section are printed before
    its records are looked at: when the row of the (rust, rust) record
    cannot be formatted, the section stops with that exception after these
    two lines. *)
Theorem partial_report (by_scenario : groups) (name : string)
  (entries : list value) (e : value) (x : exn) :
  dict_get py_eq by_scenario (VStr name) = Some entries ->
  Forall (fun e => keyed e = true) entries ->
  last_match "rust" "rust" entries = Some e ->
  format_row "rust" "rust" e = Raise x ->
  report_scenario by_scenario (VStr name) =
  (["== " +++ name; column_header], Raise x).
Proof.
  intros Hget Hk He Hx.
  destruct (lookup_last entries Hk) as (lk & Hlk & Hlast).
  destruct (matched_truthy entries _ _ e Hk He) as [_ Hy].
  assert (Hrow : row_body lk ("rust", "rust") = ([], Raise x)).
  { unfold row_body. now rewrite Hlast, He, Hy, Hx. }
  assert (Hrows : print_rows lk = ([], Raise x)).
  { unfold print_rows, order. cbn [for_each]. unfold bind at 1.
    now rewrite Hrow. }
  unfold report_scenario. cbn [py_str hashable].
  rewrite bind_lift_ok, !bind_print, Hget, bind_lift_ok, Hlk, bind_lift_ok.
  unfold bind at 1. now rewrite Hrows.
Qed.

Lemma partial_report_witness :
  report_scenario
    [(VStr "s1", [Fixtures.rust_null_iters; Sample.moonbit_s1])] (VStr "s1") =
  (["== s1"; column_header], Raise TypeError).
Proof.
  apply (partial_report
           [(VStr "s1", [Fixtures.rust_null_iters; Sample.moonbit_s1])] "s1"
           [Fixtures.rust_null_iters; Sample.moonbit_s1]
           Fixtures.rust_null_iters TypeError).
  - reflexivity.
  - repeat constructor.
  - reflexivity.
  - reflexivity.
Defined.

(** *** The reference time *)

Lemma ratio_body_zero (lk : table) (p : string * string) :
  ratio_body lk (VFloat fzero) p = ([], Ok tt).
Proof.
  destruct p as [i t]. unfold ratio_body.
  destruct (String.eqb i "rust"); [reflexivity|].
  cbv zeta. now destruct (truthy (lookup_get lk i t)).
Qed.

(** X4.  A reference record whose [ns_per_iter] counts as false ([null],
    [0], [0.0], [false], an empty string or container) is treated as
    having the time 0.0 (line 55): no ratio line is printed and nothing is
    raised, whatever the other records are. *)
Theorem falsy_reference_time (entries : list value) (lk : table)
  (ref : value) :
  build_lookup entries [] = Ok lk ->
  last_match "rust" "rust" entries = Some ref ->
  truthy (field ref "ns_per_iter" (VFloat fzero)) = false ->
  print_ratios lk = ([], Ok tt).
Proof.
  intros H Hr Hf. destruct (built_lookup entries lk H) as (Hk & _ & Hg).
  destruct (matched_truthy entries _ _ ref Hk Hr) as [Hd Hy].
  unfold print_ratios. cbv zeta. rewrite Hg, Hr, Hy.
  rewrite (py_get_field _ _ _ Hd), bind_lift_ok.
  unfold py_or. rewrite Hf. rewrite for_each_ok.
  - f_equal. apply flat_map_nil. intros p. now rewrite ratio_body_zero.
  - intros p _. now rewrite ratio_body_zero.
Qed.

Lemma falsy_reference_time_witness :
  print_ratios [((VStr "rust", VStr "rust"), Fixtures.rust_null_time);
                ((VStr "moonbit", VStr "native"), Sample.moonbit_s1)] =
  ([], Ok tt).
Proof.
  apply (falsy_reference_time [Fixtures.rust_null_time; Sample.moonbit_s1]
           _ Fixtures.rust_null_time); reflexivity.
Defined.

(** X5.  The time of the (rust, rust) record is formatted before it is used
    as the reference: when its [ns_per_iter] is no number, its row cannot
    be formatted with [.3f] ([ValueError] for a string, [TypeError] for
    [null], an array or an object), and the section ends with that
    exception after its two header lines.  The comparison and the division
    of lines 60-61 are never reached with such a reference. *)
Theorem reference_time_formatted_first (by_scenario : groups)
  (name : string) (entries : list value) (ref : value) :
  dict_get py_eq by_scenario (VStr name) = Some entries ->
  Forall (fun e => keyed e = true) entries ->
  last_match "rust" "rust" entries = Some ref ->
  is_number (field ref "ns_per_iter" (VFloat fzero)) = false ->
  exists x,
    fmt_fixed 3 (field ref "ns_per_iter" (VFloat fzero)) = Raise x /\
    (x = TypeError \/
     x = ValueError "Unknown format code 'f' for object of type 'str'") /\
    format_row "rust" "rust" ref = Raise x /\
    report_scenario by_scenario (VStr name) =
    (["== " +++ name; column_header], Raise x).
Proof.
  intros Hget Hk Hr Hn.
  destruct (lookup_last entries Hk) as (lk & Hlk & Hlast).
  destruct (matched_truthy entries _ _ ref Hk Hr) as [Hd Hy].
  assert (Hfmt : exists x,
            fmt_fixed 3 (field ref "ns_per_iter" (VFloat fzero)) = Raise x /\
            (x = TypeError \/
             x = ValueError
                   "Unknown format code 'f' for object of type 'str'")).
  { destruct (field ref "ns_per_iter" (VFloat fzero)); try discriminate;
      simpl; eauto. }
  destruct Hfmt as (x & Hx & Hkind). exists x.
  assert (Hrow : format_row "rust" "rust" ref = Raise x).
  { unfold format_row. rewrite !(py_get_field _ _ _ Hd). cbn [obind].
    now rewrite Hx. }
  split; [exact Hx|]. split; [exact Hkind|]. split; [exact Hrow|].
  assert (Hbody : row_body lk ("rust", "rust") = ([], Raise x)).
  { unfold row_body. now rewrite Hlast, Hr, Hy, Hrow. }
  assert (Hrows : print_rows lk = ([], Raise x)).
  { unfold print_rows, order. cbn [for_each]. unfold bind at 1.
    now rewrite Hbody. }
  unfold report_scenario. cbn [py_str hashable].
  rewrite bind_lift_ok, !bind_print, Hget, bind_lift_ok, Hlk, bind_lift_ok.
  unfold bind at 1. now rewrite Hrows.
Qed.

Lemma reference_time_formatted_first_witness :
  exists x,
    fmt_fixed 3 (field Fixtures.rust_text_time "ns_per_iter" (VFloat fzero)) =
    Raise x /\
    (x = TypeError \/
     x = ValueError "Unknown format code 'f' for object of type 'str'") /\
    format_row "rust" "rust" Fixtures.rust_text_time = Raise x /\
    report_scenario
      [(VStr "s1", [Fixtures.rust_text_time; Sample.moonbit_s1])]
      (VStr "s1") =
    (["== " +++ "s1"; column_header], Raise x).
Proof.
  apply (reference_time_formatted_first
           [(VStr "s1", [Fixtures.rust_text_time; Sample.moonbit_s1])] "s1"
           [Fixtures.rust_text_time; Sample.moonbit_s1]
           Fixtures.rust_text_time).
  - reflexivity.
  - repeat constructor.
  - reflexivity.
  - reflexivity.
Defined.

(** *** Ratio lines and the rows they compare *)

Lemma ratio_prefix_rust (t : string) (cand ref : value) :
  String.prefix (ratio_prefix "rust" "rust")
                (ratio_text "moonbit" t cand ref) = false.
Proof. reflexivity. Qed.

(** The ratio lines of a pair in a section. *)
Lemma ratio_lines_of_section (name : string) (entries : list value)
  (i t : string) :
  In (i, t) order ->
  ratio_lines_of i t (section_text name entries) =
  if String.eqb i "rust" then []
  else match last_match i t entries, last_match "rust" "rust" entries with
       | Some cand, Some ref =>
           if positive_ns ref then [ratio_text i t cand ref] else []
       | _, _ => []
       end.
Proof.
  intros Hin. unfold ratio_lines_of, section_text. rewrite !filter_app.
  rewrite (filter_none _ (rows entries)).
  2:{ eapply Forall_impl; [|apply rows_shape]. intros l [_ H]. apply H. }
  unfold ratio_lines, order.
  cbn [flat_map fst snd String.eqb Ascii.eqb Bool.eqb app].
  destruct Hin as [E|[E|[E|[]]]]; injection E as <- <-;
    cbn [String.eqb Ascii.eqb Bool.eqb];
    destruct (last_match "rust" "rust" entries) as [ref|];
    destruct (last_match "moonbit" "native" entries) as [c1|];
    destruct (last_match "moonbit" "wasm-gc" entries) as [c2|];
    try destruct (positive_ns ref);
    cbn [filter app];
    rewrite ?ratio_prefix_header, ?ratio_prefix_columns, ?ratio_prefix_blank,
      ?ratio_prefix_native, ?ratio_prefix_wasm, ?ratio_prefix_native_wasm,
      ?ratio_prefix_wasm_native, ?ratio_prefix_rust;
    reflexivity.
Qed.

Lemma row_in_section (name : string) (entries : list value)
  (p : string * string) (e : value) :
  In p order ->
  last_match (fst p) (snd p) entries = Some e ->
  In (row_text (fst p) (snd p) e) (section_text name entries).
Proof.
  intros Hp He. unfold section_text.
  apply in_or_app. right. apply in_or_app. left. unfold rows. apply in_flat_map.
  exists p. split; [exact Hp|]. rewrite He. now left.
Qed.

(** X6.  A ratio line never stands alone: when a section shows a ratio
    line for a pair, it also shows the row of the (rust, rust) record and
    the row of the record of that pair, the two records the ratio is
    computed from; and there is never a ratio line for (rust, rust). *)
Theorem ratio_needs_rows (by_scenario : groups) (name : string)
  (entries : list value) (i t : string) :
  dict_get py_eq by_scenario (VStr name) = Some entries ->
  Forall (fun e => valid_record e = true) entries ->
  In (i, t) order ->
  ratio_lines_of i t (fst (report_scenario by_scenario (VStr name))) <> [] ->
  (i, t) <> ("rust", "rust") /\
  exists cand ref,
    last_match i t entries = Some cand /\
    last_match "rust" "rust" entries = Some ref /\
    In (row_text i t cand) (fst (report_scenario by_scenario (VStr name))) /\
    In (row_text "rust" "rust" ref)
       (fst (report_scenario by_scenario (VStr name))).
Proof.
  intros Hget Hv Hin.
  rewrite (report_scenario_valid by_scenario name entries Hget Hv).
  cbn [fst]. rewrite (ratio_lines_of_section name entries i t Hin).
  destruct (String.eqb i "rust") eqn:Ei; [now intros []|].
  destruct (last_match i t entries) as [cand|] eqn:Ec; [|now intros []].
  destruct (last_match "rust" "rust" entries) as [ref|] eqn:Er;
    [|now intros []].
  intros _. split.
  - intros E. injection E as -> ->. discriminate.
  - exists cand, ref. repeat split.
    + exact (row_in_section name entries (i, t) cand Hin Ec).
    + exact (row_in_section name entries ("rust", "rust") ref
               rust_in_order Er).
Qed.

Lemma ratio_needs_rows_witness :
  ("moonbit", "native") <> ("rust", "rust") /\
  exists cand ref,
    last_match "moonbit" "native" [Sample.rust_s1; Sample.moonbit_s1] =
    Some cand /\
    last_match "rust" "rust" [Sample.rust_s1; Sample.moonbit_s1] = Some ref /\
    In (row_text "moonbit" "native" cand)
       (fst (report_scenario
               [(VStr "s1", [Sample.rust_s1; Sample.moonbit_s1])]
               (VStr "s1"))) /\
    In (row_text "rust" "rust" ref)
       (fst (report_scenario
               [(VStr "s1", [Sample.rust_s1; Sample.moonbit_s1])]
               (VStr "s1"))).
Proof.
  apply (ratio_needs_rows [(VStr "s1", [Sample.rust_s1; Sample.moonbit_s1])]
           "s1" [Sample.rust_s1; Sample.moonbit_s1] "moonbit" "native").
  - reflexivity.
  - repeat constructor.
  - right. left. reflexivity.
  - discriminate.
Defined.

Lemma zero_over_positive (f : spec_float) :
  SFltb fzero f = true -> SFdiv prec emax fzero f = S754_zero false.
Proof.
  destruct f as [s|s| |s m e]; try discriminate;
    destruct s; try discriminate; reflexivity.
Qed.

Lemma absent_float_field (item : value) (k : string) :
  field item k VNone = VNone ->
  is_float (field item k (VFloat fzero)) = true ->
  float_field item k = fzero.
Proof.
  unfold float_field. destruct item; try reflexivity. simpl.
  destruct (assoc k d) as [v|]; [|reflexivity].
  intros ->. discriminate.
Qed.

(** X7.  A record without [ns_per_iter] is compared as if its time were
    0.0: against a reference with a positive time, its ratio line reads
    [0.000x]. *)
Theorem missing_time_ratio (by_scenario : groups) (name : string)
  (entries : list value) (i t : string) (cand ref : value) :
  dict_get py_eq by_scenario (VStr name) = Some entries ->
  Forall (fun e => valid_record e = true) entries ->
  In (i, t) order ->
  String.eqb i "rust" = false ->
  last_match i t entries = Some cand ->
  last_match "rust" "rust" entries = Some ref ->
  field cand "ns_per_iter" VNone = VNone ->
  SFltb fzero (float_field ref "ns_per_iter") = true ->
  ratio_lines_of i t (fst (report_scenario by_scenario (VStr name))) =
  ["ratio vs rust (" +++ i +++ "/" +++ t +++ "): 0.000x"].
Proof.
  intros Hget Hv Hin Hi Hc Hr Habs Hpos.
  rewrite (report_scenario_valid by_scenario name entries Hget Hv).
  cbn [fst]. rewrite (ratio_lines_of_section name entries i t Hin).
  rewrite Hi, Hc, Hr. unfold positive_ns. rewrite Hpos.
  unfold ratio_text. rewrite (absent_float_field cand "ns_per_iter" Habs).
  - now rewrite (zero_over_positive _ Hpos).
  - apply last_match_In in Hc. rewrite Forall_forall in Hv.
    pose proof (valid_typed _ (Hv cand (proj1 Hc))) as Ht.
    unfold typed_fields in Ht. rewrite !andb_true_iff in Ht. tauto.
Qed.

Lemma missing_time_ratio_witness :
  ratio_lines_of "moonbit" "native"
    (fst (report_scenario
            [(VStr "s1", [Sample.rust_s1; Fixtures.moonbit_no_time])]
            (VStr "s1"))) =
  ["ratio vs rust (moonbit/native): 0.000x"].
Proof.
  apply (missing_time_ratio
           [(VStr "s1", [Sample.rust_s1; Fixtures.moonbit_no_time])] "s1"
           [Sample.rust_s1; Fixtures.moonbit_no_time] "moonbit" "native"
           Fixtures.moonbit_no_time Sample.rust_s1).
  - reflexivity.
  - repeat constructor.
  - right. left. reflexivity.
  - reflexivity.
  - reflexivity.
  - reflexivity.
  - reflexivity.
  - reflexivity.
Defined.

(** *** The width of a row *)

(** X8.  A row is never cut and never shorter than the column header: its
    length is the sum of the five column widths, each the greater of the
    field width (10, 10, 12, 12, 10) and the length of the text, plus the
    four separating spaces.  It has the 58 characters of the column header,
    so that the columns line up, exactly when every text fits its field. *)
Theorem row_width_formula (label target : string) (item : value)
  (row : string) :
  format_row label target item = Ok row ->
  exists c3 c4 c5,
    fmt_fixed 3 (field item "ns_per_iter" (VFloat fzero)) = Ok c3 /\
    fmt_fixed 6 (field item "total_secs" (VFloat fzero)) = Ok c4 /\
    fmt_plain (field item "iters" (VInt 0)) = Ok c5 /\
    String.length row = row_width label target c3 c4 c5 /\
    String.length column_header = 58%nat /\
    (String.length column_header <= String.length row)%nat /\
    (String.length row = String.length column_header <->
     (String.length label <= 10 /\ String.length target <= 10 /\
      String.length c3 <= 12 /\ String.length c4 <= 12 /\
      String.length c5 <= 10)%nat).
Proof.
  intros H. unfold format_row in H.
  destruct (is_dict item) eqn:Hd; [|destruct item; discriminate].
  rewrite !(py_get_field _ _ _ Hd) in H. cbn [obind] in H.
  destruct (fmt_fixed 3 (field item "ns_per_iter" (VFloat fzero)))
    as [c3| |]; try discriminate.
  destruct (fmt_fixed 6 (field item "total_secs" (VFloat fzero)))
    as [c4| |]; try discriminate.
  destruct (fmt_plain (field item "iters" (VInt 0)))
    as [c5| |]; try discriminate.
  cbn [obind] in H. injection H as H.
  exists c3, c4, c5. repeat (split; [reflexivity|]).
  assert (Hlen : String.length row = row_width label target c3 c4 c5).
  { rewrite <- H.
    change (String.length
              (ljust 10 label +++ " " +++ ljust 10 target +++ " " +++
               rjust 12 c3 +++ " " +++ rjust 12 c4 +++ " " +++ rjust 10 c5) =
            row_width label target c3 c4 c5).
    rewrite !append_length, !ljust_length, !rjust_length.
    unfold row_width. simpl String.length. lia. }
  assert (Hhdr : String.length column_header = 58%nat) by reflexivity.
  rewrite Hlen, Hhdr. unfold row_width.
  split; [reflexivity|]. split; [reflexivity|]. split; lia.
Qed.

Lemma row_width_formula_witness :
  exists c3 c4 c5,
    fmt_fixed 3 (field Sample.rust_s1 "ns_per_iter" (VFloat fzero)) = Ok c3 /\
    fmt_fixed 6 (field Sample.rust_s1 "total_secs" (VFloat fzero)) = Ok c4 /\
    fmt_plain (field Sample.rust_s1 "iters" (VInt 0)) = Ok c5 /\
    String.length "rust       rust             10.000     0.000010       1000"
    = row_width "rust" "rust" c3 c4 c5 /\
    String.length column_header = 58%nat /\
    (String.length column_header <=
     String.length
       "rust       rust             10.000     0.000010       1000")%nat /\
    (String.length
       "rust       rust             10.000     0.000010       1000" =
     String.length column_header <->
     (String.length "rust" <= 10 /\ String.length "rust" <= 10 /\
      String.length c3 <= 12 /\ String.length c4 <= 12 /\
      String.length c5 <= 10)%nat).
Proof.
  exact (row_width_formula "rust" "rust" Sample.rust_s1 _ eq_refl).
Defined.

(** *** Whole runs: loading *)

Lemma load_file_agrees (w w' : World) (q : string) :
  json_load w' q = json_load w q ->
  path_str w' q = path_str w q ->
  load_file w' q = load_file w q.
Proof. intros Hj Hp. unfold load_file. now rewrite Hj, Hp. Qed.

Lemma main_load_error (w : World) (prog p : string) (ps1 ps2 : list string)
  (e : exn) :
  Forall (fun q => exists l, load_file w q = Ok l) ps1 ->
  load_file w p = Raise e ->
  main w (prog :: ps1 ++ p :: ps2) = ([], Raise e).
Proof.
  intros Hok Hp.
  assert (Hall : load_all w (ps1 ++ p :: ps2) [] = Raise e).
  { destruct (load_all_app w ps1 Hok (p :: ps2) []) as [loaded ->].
    simpl. now rewrite Hp. }
  unfold main. cbn [tl].
  destruct (ps1 ++ p :: ps2) as [|q qs] eqn:E.
  - now destruct ps1.
  - now rewrite Hall.
Qed.

(** X9.  The first file that fails to load ends the run with the very
    exception [load_file] raised for it, whatever it is (the file cannot be
    opened, its text is not JSON, or its value is not an array): nothing is
    printed and the exit status is 1.  The files after it are never read:
    the outcome is the same with any other paths after it, in any
    directory that holds the same files up to the failing one. *)
Theorem first_load_error (w : World) (prog p : string)
  (ps1 ps2 : list string) (e : exn) :
  Forall (fun q => exists l, load_file w q = Ok l) ps1 ->
  load_file w p = Raise e ->
  main w (prog :: ps1 ++ p :: ps2) = ([], Raise e) /\
  run w (prog :: ps1 ++ p :: ps2) = ([], Some 1) /\
  forall (w' : World) (ps2' : list string),
    (forall q, In q (ps1 ++ [p]) ->
       json_load w' q = json_load w q /\ path_str w' q = path_str w q) ->
    main w' (prog :: ps1 ++ p :: ps2') = ([], Raise e).
Proof.
  intros Hok Hp.
  pose proof (main_load_error w prog p ps1 ps2 e Hok Hp) as Hmain.
  split; [exact Hmain|]. split.
  - unfold run. now rewrite Hmain.
  - intros w' ps2' Hsame.
    assert (Hfile : forall q, In q (ps1 ++ [p]) ->
              load_file w' q = load_file w q).
    { intros q Hq. destruct (Hsame q Hq) as [Hj Hs].
      now apply load_file_agrees. }
    apply main_load_error.
    + rewrite Forall_forall in *. intros q Hq.
      destruct (Hok q Hq) as [l Hl]. exists l.
      rewrite Hfile; [exact Hl|]. apply in_or_app. now left.
    + rewrite Hfile; [exact Hp|]. apply in_or_app. right. now left.
Qed.

Lemma first_load_error_witness :
  main Fixtures.disk ["bench_compare.py"; "a.json"; "broken.json"; "b.json"] =
  ([], Raise JSONDecodeError) /\
  run Fixtures.disk ["bench_compare.py"; "a.json"; "broken.json"; "b.json"] =
  ([], Some 1) /\
  forall (w' : World) (ps2' : list string),
    (forall q, In q ["a.json"; "broken.json"] ->
       json_load w' q = json_load Fixtures.disk q /\
       path_str w' q = path_str Fixtures.disk q) ->
    main w' ("bench_compare.py" :: ["a.json"] ++ "broken.json" :: ps2') =
    ([], Raise JSONDecodeError).
Proof.
  apply (first_load_error Fixtures.disk "bench_compare.py" "broken.json"
           ["a.json"] ["b.json"] JSONDecodeError).
  - repeat constructor. exists [Sample.rust_s1]. reflexivity.
  - reflexivity.
Defined.

Lemma load_all_empty (w : World) (paths : list string) (acc : list value) :
  Forall (fun q => load_file w q = Ok []) paths ->
  load_all w paths acc = Ok acc.
Proof.
  intros H. revert acc. induction H as [|q paths Hq _ IH]; intros acc; simpl.
  - reflexivity.
  - rewrite Hq. cbn [obind]. now rewrite app_nil_r.
Qed.

(** X10.  When every input file holds an empty array, the run prints
    nothing at all, not even a header, and exits with status 0. *)
Theorem empty_arrays_print_nothing (w : World) (prog p : string)
  (ps : list string) :
  Forall (fun q => load_file w q = Ok []) (p :: ps) ->
  run w (prog :: p :: ps) = ([], Some 0).
Proof.
  intros H. unfold run, main. cbn [tl].
  now rewrite (load_all_empty w (p :: ps) [] H).
Qed.

Lemma empty_arrays_print_nothing_witness :
  run Fixtures.disk ["bench_compare.py"; "empty.json"; "empty.json"] =
  ([], Some 0).
Proof.
  apply (empty_arrays_print_nothing Fixtures.disk "bench_compare.py"
           "empty.json" ["empty.json"]).
  repeat constructor.
Defined.

(** *** Whole runs: the usage status *)

Lemma bind_result {A B} (m : io A) (k : A -> io B) (b : B) :
  snd (bind m k) = Ok b -> exists a, snd m = Ok a /\ snd (k a) = Ok b.
Proof.
  unfold bind. destruct (snd m) as [a| |]; cbn [snd]; try discriminate.
  intros H. now exists a.
Qed.

Lemma bind_lift_output {A B} (m : outcome A) (k : A -> io B) :
  fst (bind (lift m) k) = match m with Ok a => fst (k a) | _ => [] end.
Proof. now destruct m. Qed.

Lemma bind_ret_output {A B} (m : io A) (b : B) :
  fst (bind m (fun _ => ret b)) = fst m.
Proof.
  unfold bind. destruct (snd m); cbn [fst ret]; [apply app_nil_r| |];
    reflexivity.
Qed.

(** A section begins with its header, unless it fails before printing. *)
Lemma report_scenario_head (by_scenario : groups) (scenario : value) :
  (fst (report_scenario by_scenario scenario) = [] /\
   forall u, snd (report_scenario by_scenario scenario) <> Ok u) \/
  exists name rest,
    fst (report_scenario by_scenario scenario) = ("== " +++ name) :: rest.
Proof.
  unfold report_scenario.
  destruct (py_str scenario) as [name| |].
  - right. exists name. rewrite bind_lift_ok, bind_print. cbn [fst]. eauto.
  - left. split; [reflexivity|discriminate].
  - left. split; [reflexivity|discriminate].
Qed.

Lemma for_each_report_head (by_scenario : groups) (scenarios : list value) :
  fst (for_each scenarios (report_scenario by_scenario)) = [] \/
  exists name rest,
    fst (for_each scenarios (report_scenario by_scenario)) =
    ("== " +++ name) :: rest.
Proof.
  destruct scenarios as [|k ks]; [now left|]. cbn [for_each]. unfold bind.
  destruct (report_scenario_head by_scenario k)
    as [[Hout Hno]|(name & rest & Hout)].
  - destruct (snd (report_scenario by_scenario k)) as [u| |]; cbn [fst].
    + now destruct (Hno u).
    + now left.
    + now left.
  - right.
    destruct (snd (report_scenario by_scenario k)) as [u| |]; cbn [fst];
      rewrite Hout; cbn [app]; eauto.
Qed.

Lemma main_paths_result (w : World) (prog p : string) (ps : list string)
  (r : option Z) :
  snd (main w (prog :: p :: ps)) = Ok r -> r = None.
Proof.
  unfold main. cbn [tl]. intros H.
  apply bind_result in H. destruct H as (items & _ & H).
  apply bind_result in H. destruct H as (keys & _ & H).
  apply bind_result in H. destruct H as (scenarios & _ & H).
  apply bind_result in H. destruct H as (by_scenario & _ & H).
  apply bind_result in H. destruct H as (u & _ & H).
  cbn in H. congruence.
Qed.

Lemma main_paths_head (w : World) (prog p : string) (ps : list string) :
  fst (main w (prog :: p :: ps)) = [] \/
  exists name rest, fst (main w (prog :: p :: ps)) = ("== " +++ name) :: rest.
Proof.
  unfold main. cbn [tl]. rewrite bind_lift_output.
  destruct (load_all w (p :: ps) []) as [items| |]; [|now left|now left].
  rewrite bind_lift_output.
  destruct (scenario_set items []) as [keys| |]; [|now left|now left].
  rewrite bind_lift_output.
  destruct (sorted keys) as [scenarios| |]; [|now left|now left].
  rewrite bind_lift_output.
  destruct (group_items items (empty_groups scenarios)) as [by_scenario| |];
    [|now left|now left].
  rewrite bind_ret_output. apply for_each_report_head.
Qed.

(** X11.  Exit status 2 and the usage line are reserved for a run without
    input paths: with one path or more the status is never 2, and the first
    line printed, if there is one, is a section header, not the usage
    line. *)
Theorem usage_only_without_paths (w : World) (argv : list string) :
  (snd (run w argv) = Some 2 <-> tl argv = []) /\
  (hd_error (fst (run w argv)) = Some "usage: bench_compare.py <json...>" <->
   tl argv = []).
Proof.
  destruct argv as [|prog [|p ps]].
  - repeat split; reflexivity.
  - repeat split; reflexivity.
  - cbn [tl]. unfold run. cbn [fst snd]. split; split; try discriminate.
    + destruct (snd (main w (prog :: p :: ps))) as [[c|]| |] eqn:E;
        try discriminate.
      apply main_paths_result in E. discriminate.
    + destruct (main_paths_head w prog p ps) as [H|(name & rest & H)];
        rewrite H; discriminate.
Qed.

(** *** Whole runs: the sections in order *)

Lemma group_of_name (s : string) (items : list value) (e : value) :
  Forall (fun e => named e = true) items ->
  In e (group_of (VStr s) items) <-> In e items /\ scenario_name e = s.
Proof.
  intros Hn. rewrite Forall_forall in Hn. unfold group_of.
  rewrite filter_In. split; intros [Hin H]; (split; [exact Hin|]).
  - apply py_eq_str_r in H. unfold scenario_name. now rewrite H.
  - apply py_eq_str_r. destruct (named_key_str e (Hn e Hin)) as [_ ->].
    now rewrite H.
Qed.

Lemma for_each_raise {A} (xs1 : list A) (x : A) (xs2 : list A)
  (body : A -> io unit) (e : exn) :
  (forall y, In y xs1 -> snd (body y) = Ok tt) ->
  snd (body x) = Raise e ->
  for_each (xs1 ++ x :: xs2) body =
  (flat_map (fun y => fst (body y)) xs1 ++ fst (body x), Raise e).
Proof.
  intros Hok Hx. induction xs1 as [|y xs1 IH]; cbn [app for_each flat_map].
  - unfold bind. now rewrite Hx.
  - unfold bind. rewrite (Hok y (or_introl eq_refl)).
    rewrite IH by (intros z Hz; apply Hok; now right).
    cbn [fst snd]. now rewrite app_assoc.
Qed.

Lemma sorted_app_lt (l1 l2 : list string) :
  StronglySorted str_lt (l1 ++ l2) ->
  forall a b, In a l1 -> In b l2 -> str_lt a b.
Proof.
  induction l1 as [|c l1 IH]; intros H a b Ha Hb; [destruct Ha|].
  cbn [app] in H. inversion H as [|? ? Hs Hall]; subst.
  destruct Ha as [<-|Ha].
  - rewrite Forall_forall in Hall. apply Hall. apply in_or_app. now right.
  - now apply IH.
Qed.

Lemma sorted_app_left (l1 l2 : list string) :
  StronglySorted str_lt (l1 ++ l2) -> StronglySorted str_lt l1.
Proof.
  induction l1 as [|c l1 IH]; intros H; [constructor|].
  cbn [app] in H. inversion H as [|? ? Hs Hall]; subst.
  constructor; [now apply IH|].
  rewrite Forall_forall in *. intros x Hx. apply Hall. apply in_or_app.
  now left.
Qed.

Lemma sorted_before (l1 l2 : list string) (s x : string) :
  StronglySorted str_lt (l1 ++ s :: l2) ->
  In x l1 <-> In x (l1 ++ s :: l2) /\ str_lt x s.
Proof.
  intros H. split.
  - intros Hx. split; [apply in_or_app; now left|].
    apply (sorted_app_lt l1 (s :: l2) H); [exact Hx|now left].
  - intros [Hin Hlt]. apply in_app_or in Hin.
    destruct Hin as [Hin|[<-|Hin]]; [exact Hin| |].
    + now destruct (str_lt_irrefl s).
    + assert (Hsx : str_lt s x).
      { apply (sorted_app_lt (l1 ++ [s]) l2).
        - now rewrite <- app_assoc.
        - apply in_or_app. right. now left.
        - exact Hin. }
      destruct (str_lt_irrefl s). now apply (str_lt_trans s x s).
Qed.

(** X12.  Sections are printed scenario by scenario, in increasing order
    of name, and the run stops at the first section that fails: the
    sections of the scenarios before it are printed in full, then what the
    failing section printed before its exception, and nothing of the
    scenarios after it; the exit status is 1. *)
Theorem stops_at_first_failure (w : World) (prog p : string)
  (ps : list string) (items : list value) (s : string)
  (out : list string) (x : exn) :
  load_all w (p :: ps) [] = Ok items ->
  Forall (fun e => named e = true) items ->
  (exists item, In item items /\ scenario_name item = s) ->
  (forall item, In item items -> str_lt (scenario_name item) s ->
     valid_record item = true) ->
  (forall by_scenario,
     dict_get py_eq by_scenario (VStr s) = Some (group_of (VStr s) items) ->
     report_scenario by_scenario (VStr s) = (out, Raise x)) ->
  exists before,
    StronglySorted str_lt before /\
    (forall n, In n before <->
       (exists item, In item items /\ scenario_name item = n) /\
       str_lt n s) /\
    main w (prog :: p :: ps) =
    (flat_map (fun n => section_text n (group_of (VStr n) items)) before
     ++ out, Raise x) /\
    snd (run w (prog :: p :: ps)) = Some 1.
Proof.
  intros Hload Hn Hs Hvalid Hfail.
  destruct (main_named w prog p ps items Hload Hn)
    as (names & by_scenario & Hsorted & Hnames & Hget & Hmain).
  apply Hnames in Hs. destruct (in_split s names Hs) as (l1 & l2 & E).
  subst names. exists l1.
  assert (Hl1 : forall n, In n l1 ->
            report_scenario by_scenario (VStr n) =
            (section_text n (group_of (VStr n) items), Ok tt)).
  { intros n Hin. apply (sorted_before l1 l2 s n Hsorted) in Hin.
    destruct Hin as [Hin Hlt].
    apply report_scenario_valid; [now apply Hget|].
    rewrite Forall_forall. intros e He.
    apply (group_of_name n items e Hn) in He. destruct He as [He Hname].
    apply Hvalid; [exact He|now rewrite Hname]. }
  assert (Hrun : main w (prog :: p :: ps) =
            (flat_map (fun n => section_text n (group_of (VStr n) items)) l1
             ++ out, Raise x)).
  { rewrite Hmain, map_app. cbn [map].
    rewrite (for_each_raise (map VStr l1) (VStr s) (map VStr l2) _ x).
    - unfold bind. cbn [fst snd]. rewrite (Hfail by_scenario (Hget s Hs)).
      cbn [fst]. f_equal. f_equal. rewrite flat_map_map.
      apply flat_map_ext_in. intros n Hin. now rewrite (Hl1 n Hin).
    - intros k Hk. apply in_map_iff in Hk. destruct Hk as (n & <- & Hin).
      now rewrite (Hl1 n Hin).
    - now rewrite (Hfail by_scenario (Hget s Hs)). }
  split; [exact (sorted_app_left l1 (s :: l2) Hsorted)|]. split; [|split].
  - intros n. rewrite (sorted_before l1 l2 s n Hsorted), Hnames. tauto.
  - exact Hrun.
  - unfold run. now rewrite Hrun.
Qed.

Lemma stops_at_first_failure_witness :
  exists before,
    StronglySorted str_lt before /\
    (forall n, In n before <->
       (exists item,
          In item [Fixtures.rust_s2_null_iters; Sample.rust_s1] /\
          scenario_name item = n) /\
       str_lt n "s2") /\
    main Fixtures.disk ["bench_compare.py"; "partial.json"] =
    (flat_map (fun n => section_text n
                 (group_of (VStr n)
                    [Fixtures.rust_s2_null_iters; Sample.rust_s1])) before
     ++ ["== s2"; column_header], Raise TypeError) /\
    snd (run Fixtures.disk ["bench_compare.py"; "partial.json"]) = Some 1.
Proof.
  apply (stops_at_first_failure Fixtures.disk "bench_compare.py"
           "partial.json" [] [Fixtures.rust_s2_null_iters; Sample.rust_s1]
           "s2" ["== s2"; column_header] TypeError).
  - reflexivity.
  - repeat constructor.
  - exists Fixtures.rust_s2_null_iters. split; [now left|reflexivity].
  - intros item [<-|[<-|[]]] Hlt; [discriminate Hlt|reflexivity].
  - intros by_scenario H. unfold report_scenario. cbn [py_str hashable].
    rewrite bind_lift_ok, !bind_print, H. reflexivity.
Defined.

(** *** Whole runs: the empty name, the order of the records, the kinds of
    scenario *)

Lemma least_first (names : list string) :
  StronglySorted str_lt names -> In "" names ->
  exists rest, names = "" :: rest.
Proof.
  intros H Hin. destruct names as [|n rest]; [destruct Hin|].
  destruct Hin as [->|Hin]; [now exists rest|].
  inversion H as [|? ? _ Hall]; subst. rewrite Forall_forall in Hall.
  specialize (Hall "" Hin). unfold str_lt in Hall.
  destruct n; discriminate.
Qed.

(** X13.  Records without [scenario] are reported under the empty name,
    and their section comes first: the output of a run over well-typed
    records, one of which has no scenario name, begins with the section
    headed by [== ] that holds those records. *)
Theorem unnamed_section_first (w : World) (prog p : string)
  (ps : list string) (items : list value) (item : value) :
  load_all w (p :: ps) [] = Ok items ->
  Forall (fun e => valid_record e = true) items ->
  In item items ->
  scenario_name item = "" ->
  exists rest,
    fst (main w (prog :: p :: ps)) =
    section_text "" (group_of (VStr "") items) ++ rest /\
    In item (group_of (VStr "") items).
Proof.
  intros Hload Hv Hin Hname.
  destruct (main_valid w prog p ps items Hload Hv)
    as (names & Hsorted & Hnames & Hmain).
  assert (Hempty : In "" names) by (apply Hnames; now exists item).
  destruct (least_first names Hsorted Hempty) as [rest ->].
  rewrite Hmain. cbn [fst flat_map]. eexists. split; [reflexivity|].
  apply filter_In. split; [exact Hin|]. apply py_eq_str_r.
  rewrite Forall_forall in Hv.
  destruct (valid_key_str item (Hv item Hin)) as [_ ->]. now rewrite Hname.
Qed.

Lemma unnamed_section_first_witness :
  exists rest,
    fst (main Fixtures.disk ["bench_compare.py"; "unnamed.json"]) =
    section_text "" (group_of (VStr "")
                       [Sample.rust_s1; Fixtures.rust_unnamed]) ++ rest /\
    In Fixtures.rust_unnamed
       (group_of (VStr "") [Sample.rust_s1; Fixtures.rust_unnamed]).
Proof.
  apply (unnamed_section_first Fixtures.disk "bench_compare.py"
           "unnamed.json" [] [Sample.rust_s1; Fixtures.rust_unnamed]
           Fixtures.rust_unnamed).
  - reflexivity.
  - repeat constructor.
  - right. now left.
  - reflexivity.
Defined.

Lemma strict_unique (l1 l2 : list string) :
  StronglySorted str_lt l1 -> StronglySorted str_lt l2 ->
  (forall x, In x l1 <-> In x l2) -> l1 = l2.
Proof.
  intros H1. revert l2. induction H1 as [|a l1 H1 IH Ha]; intros l2 H2 Hsame.
  - destruct l2 as [|b l2]; [reflexivity|].
    destruct (proj2 (Hsame b) (or_introl eq_refl)).
  - destruct H2 as [|b l2 H2 Hb].
    + destruct (proj1 (Hsame a) (or_introl eq_refl)).
    + rewrite Forall_forall in Ha, Hb.
      assert (E : a = b).
      { destruct (proj1 (Hsame a) (or_introl eq_refl)) as [E|Hin];
          [now symmetry|].
        destruct (proj2 (Hsame b) (or_introl eq_refl)) as [E|Hin'];
          [exact E|].
        destruct (str_lt_irrefl a).
        exact (str_lt_trans a b a (Ha b Hin') (Hb a Hin)). }
      subst b. f_equal. apply IH; [exact H2|]. intros x. split; intros Hx.
      * destruct (proj1 (Hsame x) (or_intror Hx)) as [E|Hin]; [|exact Hin].
        subst x. now destruct (str_lt_irrefl a (Ha a Hx)).
      * destruct (proj2 (Hsame x) (or_intror Hx)) as [E|Hin]; [|exact Hin].
        subst x. now destruct (str_lt_irrefl a (Hb a Hx)).
Qed.

Lemma last_match_unique (i t : string) (l : list value) (e : value) :
  (forall a b, In a l -> In b l ->
     has_pair i t a = true -> has_pair i t b = true -> a = b) ->
  In e l -> has_pair i t e = true ->
  last_match i t l = Some e.
Proof.
  intros Hu Hin He. destruct (last_match i t l) as [e'|] eqn:E.
  - apply last_match_In in E. destruct E as [Hin' He'].
    f_equal. now apply Hu.
  - unfold last_match in E.
    pose proof (find_none _ _ E e (proj1 (in_rev l e) Hin)) as Hno.
    congruence.
Qed.

Lemma last_match_same (i t : string) (l1 l2 : list value) :
  (forall x, In x l1 <-> In x l2) ->
  (forall a b, In a l1 -> In b l1 ->
     has_pair i t a = true -> has_pair i t b = true -> a = b) ->
  last_match i t l1 = last_match i t l2.
Proof.
  intros Hsame Hu. destruct (last_match i t l1) as [e|] eqn:E.
  - apply last_match_In in E. destruct E as [Hin He]. symmetry.
    apply last_match_unique; [|now apply Hsame|exact He].
    intros a b Ha Hb. apply Hu; now apply Hsame.
  - symmetry. apply last_match_none. rewrite Forall_forall. intros x Hx.
    unfold last_match in E. apply (find_none _ _ E).
    apply in_rev. rewrite rev_involutive. now apply Hsame.
Qed.

(** X14.  When no two different records share a scenario and a pair of the
    fixed order, the order in which the records are loaded does not matter:
    two runs over the same well-typed records, whatever the files they come
    from and the order of the files, print the same lines and end with the
    same status. *)
Theorem record_order_irrelevant (w1 w2 : World) (prog1 prog2 p1 p2 : string)
  (ps1 ps2 : list string) (items1 items2 : list value) :
  load_all w1 (p1 :: ps1) [] = Ok items1 ->
  load_all w2 (p2 :: ps2) [] = Ok items2 ->
  Forall (fun e => valid_record e = true) items1 ->
  same_records items1 items2 ->
  unambiguous items1 ->
  run w1 (prog1 :: p1 :: ps1) = run w2 (prog2 :: p2 :: ps2).
Proof.
  intros Hl1 Hl2 Hv1 Hsame Hu.
  assert (Hv2 : Forall (fun e => valid_record e = true) items2).
  { rewrite Forall_forall in *. intros e He. apply Hv1. now apply Hsame. }
  destruct (main_valid w1 prog1 p1 ps1 items1 Hl1 Hv1)
    as (names1 & Hs1 & Hn1 & Hm1).
  destruct (main_valid w2 prog2 p2 ps2 items2 Hl2 Hv2)
    as (names2 & Hs2 & Hn2 & Hm2).
  assert (E : names1 = names2).
  { apply strict_unique; [exact Hs1|exact Hs2|].
    intros x. rewrite Hn1, Hn2. split; intros (item & Hin & Hx);
      exists item; (split; [now apply Hsame|exact Hx]). }
  subst names2. unfold run. rewrite Hm1, Hm2. cbn [fst snd]. f_equal.
  apply flat_map_ext_in. intros s _. apply section_text_ext. intros q Hq.
  apply last_match_same.
  - intros x. unfold group_of. rewrite !filter_In.
    split; intros [Hin Hk]; (split; [now apply Hsame|exact Hk]).
  - intros a b Ha Hb Hpa Hpb. unfold group_of in Ha, Hb.
    apply filter_In in Ha, Hb. destruct Ha as [Ha Hka], Hb as [Hb Hkb].
    apply py_eq_str_r in Hka, Hkb.
    apply (Hu a b q Ha Hb Hq); [congruence|exact Hpa|exact Hpb].
Qed.

Lemma record_order_irrelevant_witness :
  run Fixtures.disk ["bench_compare.py"; "a.json"; "b.json"] =
  run Fixtures.disk ["report"; "b.json"; "a.json"].
Proof.
  apply (record_order_irrelevant Fixtures.disk Fixtures.disk
           "bench_compare.py" "report" "a.json" "b.json" ["b.json"]
           ["a.json"] [Sample.rust_s1; Sample.moonbit_s1]
           [Sample.moonbit_s1; Sample.rust_s1]).
  - reflexivity.
  - reflexivity.
  - repeat constructor.
  - intros x. simpl. tauto.
  - intros a b q [<-|[<-|[]]] [<-|[<-|[]]] [<-|[<-|[<-|[]]]] _ Ha Hb;
      try reflexivity; discriminate.
Defined.

Lemma as_strs_none (l : list value) (v : value) :
  In v l -> is_str v = false -> as_strs l = None.
Proof.
  induction l as [|u l IH]; intros Hin Hv; [destruct Hin|].
  destruct Hin as [->|Hin].
  - destruct v; try reflexivity. discriminate.
  - destruct u; try reflexivity. simpl. now rewrite (IH Hin Hv).
Qed.

(** X15.  Scenario values of different kinds cannot be ordered: when one
    record has a string for [scenario] (or none) and another one a value
    that is no string (a number, a boolean or [null]), the run fails with a
    [TypeError] while sorting the scenarios, before anything is printed;
    the exit status is 1. *)
Theorem mixed_scenario_kinds (w : World) (prog p : string)
  (ps : list string) (items : list value) (a b : value) :
  load_all w (p :: ps) [] = Ok items ->
  Forall (fun e => groupable e = true) items ->
  In a items -> In b items ->
  is_str (scenario_key a) = true ->
  is_str (scenario_key b) = false ->
  main w (prog :: p :: ps) = ([], Raise TypeError) /\
  run w (prog :: p :: ps) = ([], Some 1).
Proof.
  intros Hload Hg Ha Hb Hsa Hsb.
  assert (Hk : Forall (fun item => is_dict item = true /\
                         hashable (scenario_key item) = true) items).
  { eapply Forall_impl; [|exact Hg]. intros e He. unfold groupable in He.
    rewrite !andb_true_iff in He. tauto. }
  pose proof (scenario_set_ok items Hk []) as Hset.
  set (keys := fold_left set_add (map scenario_key items) []) in *.
  destruct (fold_set_add_covers (map scenario_key items) [] (scenario_key a)
              (in_map _ _ _ Ha)) as (ka & Hka & Ea).
  destruct (fold_set_add_covers (map scenario_key items) [] (scenario_key b)
              (in_map _ _ _ Hb)) as (kb & Hkb & Eb).
  fold keys in Hka, Hkb.
  assert (Hstr : is_str ka = true).
  { destruct (scenario_key a) as [| | | |sa| |]; try discriminate.
    destruct Ea as [->|Ea]; [reflexivity|].
    apply py_eq_str_r in Ea. now subst ka. }
  assert (Hnot : is_str kb = false).
  { destruct Eb as [->|Eb]; [exact Hsb|].
    destruct kb as [| | | |sb| |]; try reflexivity.
    apply py_eq_str_l in Eb. rewrite Eb in Hsb. discriminate. }
  assert (Hnan : existsb is_nan keys = false).
  { destruct (existsb is_nan keys) eqn:E; [|reflexivity].
    apply existsb_exists in E. destruct E as (k & Hin & Hk').
    apply fold_set_add_In in Hin. destruct Hin as [[]|Hin].
    apply in_map_iff in Hin. destruct Hin as (e & <- & He).
    rewrite Forall_forall in Hg. specialize (Hg e He).
    unfold groupable in Hg. rewrite !andb_true_iff in Hg.
    destruct Hg as [_ Hg]. rewrite Hk' in Hg. discriminate. }
  assert (Hnum : forallb is_number keys = false).
  { destruct (forallb is_number keys) eqn:E; [|reflexivity].
    rewrite forallb_forall in E. specialize (E ka Hka).
    destruct ka; discriminate. }
  assert (Hsorted : sorted keys = Raise TypeError).
  { unfold sorted. rewrite (as_strs_none keys kb Hkb Hnot), Hnan, Hnum.
    destruct keys as [|k1 [|k2 ks]]; [destruct Hka| |reflexivity].
    destruct Hka as [<-|[]], Hkb as [<-|[]]. congruence. }
  assert (Hmain : main w (prog :: p :: ps) = ([], Raise TypeError)).
  { unfold main. cbn [tl].
    now rewrite Hload, bind_lift_ok, Hset, bind_lift_ok, Hsorted. }
  split; [exact Hmain|]. unfold run. now rewrite Hmain.
Qed.

Lemma mixed_scenario_kinds_witness :
  main Fixtures.disk ["bench_compare.py"; "mixed.json"] =
  ([], Raise TypeError) /\
  run Fixtures.disk ["bench_compare.py"; "mixed.json"] = ([], Some 1).
Proof.
  apply (mixed_scenario_kinds Fixtures.disk "bench_compare.py" "mixed.json"
           [] [Sample.rust_s1; Fixtures.numbered] Sample.rust_s1
           Fixtures.numbered).
  - reflexivity.
  - repeat constructor.
  - now left.
  - right. now left.
  - reflexivity.
  - reflexivity.
Defined.

(** *** A pair that cannot be hashed *)

Lemma build_lookup_unhashable (entries : list value) :
  Forall (fun e => is_dict e = true) entries ->
  Exists (fun e => hashable (field e "impl" VNone) &&
                   hashable (field e "target" VNone) = false) entries ->
  forall lk, build_lookup entries lk = Raise TypeError.
Proof.
  intros Hd Hex. induction Hex as [e entries He|e entries _ IH]; intros lk;
    inversion Hd as [|? ? Hde Hds]; subst; simpl;
    rewrite !(py_get_field _ _ _ Hde); cbn [obind].
  - now rewrite He.
  - destruct (hashable (field e "impl" VNone) &&
              hashable (field e "target" VNone)); [|reflexivity].
    now apply IH.
Qed.

(** X16.  A record whose [impl] or [target] is an array or an object
    cannot be entered in the lookup: the section of its scenario prints its
    header and the column header, then fails with a [TypeError], whatever
    the other records of the scenario are. *)
Theorem unhashable_pair_fails (by_scenario : groups) (name : string)
  (entries : list value) :
  dict_get py_eq by_scenario (VStr name) = Some entries ->
  Forall (fun e => is_dict e = true) entries ->
  Exists (fun e => hashable (field e "impl" VNone) &&
                   hashable (field e "target" VNone) = false) entries ->
  report_scenario by_scenario (VStr name) =
  (["== " +++ name; column_header], Raise TypeError).
Proof.
  intros Hget Hd Hex. unfold report_scenario. cbn [py_str hashable].
  rewrite bind_lift_ok, !bind_print, Hget, bind_lift_ok.
  now rewrite (build_lookup_unhashable entries Hd Hex []).
Qed.

Lemma unhashable_pair_fails_witness :
  report_scenario [(VStr "s1", [Sample.rust_s1; Fixtures.rust_listed])]
                  (VStr "s1") =
  (["== " +++ "s1"; column_header], Raise TypeError).
Proof.
  apply (unhashable_pair_fails
           [(VStr "s1", [Sample.rust_s1; Fixtures.rust_listed])] "s1"
           [Sample.rust_s1; Fixtures.rust_listed]).
  - reflexivity.
  - repeat constructor.
  - right. left. reflexivity.
Defined.

(** *** The traversal order of the scenario set *)

(** X17.  The order in which the set of scenario names is traversed does
    not show: two traversals of the same set of strings are sorted to the
    same list, which is strictly increasing. *)
Theorem sorted_ignores_set_order (s1 s2 : list value) :
  Forall (fun v => is_str v = true) s1 ->
  NoDup s1 -> NoDup s2 ->
  (forall x, In x s1 <-> In x s2) ->
  sorted s1 = sorted s2 /\
  exists names,
    sorted s1 = Ok (map VStr names) /\ StronglySorted str_lt names /\
    forall x, In x names <-> In (VStr x) s1.
Proof.
  intros Hstr Hn1 Hn2 Hsame. rewrite Forall_forall in Hstr.
  destruct (all_str_map s1 Hstr) as [ss1 E1].
  destruct (all_str_map s2) as [ss2 E2].
  { intros x Hx. apply Hstr. now apply Hsame. }
  subst s1 s2.
  assert (Hinj : forall a b : string, VStr a = VStr b -> a = b)
    by (intros a b H; now injection H).
  apply NoDup_map_inv in Hn1, Hn2.
  assert (Hin : forall x, In x ss1 <-> In x ss2).
  { intros x. split; intros Hx.
    - apply (in_map VStr) in Hx. apply Hsame in Hx. apply in_map_iff in Hx.
      destruct Hx as (y & Hy & Hx). apply Hinj in Hy. now subst y.
    - apply (in_map VStr) in Hx. apply Hsame in Hx. apply in_map_iff in Hx.
      destruct Hx as (y & Hy & Hx). apply Hinj in Hy. now subst y. }
  assert (S1 : sorted (map VStr ss1) = Ok (map VStr (sort_strings ss1))).
  { unfold sorted. now rewrite (proj2 (as_strs_map _ ss1) eq_refl). }
  assert (S2 : sorted (map VStr ss2) = Ok (map VStr (sort_strings ss2))).
  { unfold sorted. now rewrite (proj2 (as_strs_map _ ss2) eq_refl). }
  split.
  - rewrite S1, S2. do 2 f_equal.
    apply strict_unique; try now apply sort_strings_strict.
    intros x. now rewrite !sort_strings_In.
  - exists (sort_strings ss1). split; [exact S1|].
    split; [now apply sort_strings_strict|].
    intros x. rewrite sort_strings_In. split; intros Hx.
    + now apply in_map.
    + apply in_map_iff in Hx. destruct Hx as (y & Hy & Hx).
      apply Hinj in Hy. now subst y.
Qed.

Lemma sorted_ignores_set_order_witness :
  sorted [VStr "s2"; VStr "s10"; VStr "s1"] =
  sorted [VStr "s1"; VStr "s2"; VStr "s10"] /\
  exists names,
    sorted [VStr "s2"; VStr "s10"; VStr "s1"] = Ok (map VStr names) /\
    StronglySorted str_lt names /\
    forall x, In x names <-> In (VStr x) [VStr "s2"; VStr "s10"; VStr "s1"].
Proof.
  apply (sorted_ignores_set_order [VStr "s2"; VStr "s10"; VStr "s1"]
           [VStr "s1"; VStr "s2"; VStr "s10"]).
  - repeat constructor.
  - repeat constructor; simpl; intuition discriminate.
  - repeat constructor; simpl; intuition discriminate.
  - intros x. simpl. tauto.
Defined.

(** *** Rounding to the printed decimals *)

(** X18.  The digits [format_row] prints for a finite float [m * 2^e] with
    [p] decimals are those of the integer [k] nearest to [m * 2^e * 10^p]:
    exact when the value is an integer, otherwise at most half a unit of
    the last printed decimal away from it, and even when the value lies
    half-way between two candidates.  Nothing is truncated. *)
Theorem fixed_rounds_to_nearest (p : nat) (s : bool) (m : positive) (e : Z) :
  float_fixed p (S754_finite s m e) =
  sign_str s +++ decimal p (scaled p m e) /\
  (0 <= e -> scaled p m e = Zpos m * 10 ^ Z.of_nat p * 2 ^ e) /\
  (e < 0 ->
   2 * Z.abs (scaled p m e * 2 ^ (- e) - Zpos m * 10 ^ Z.of_nat p)
   <= 2 ^ (- e) /\
   (2 * Z.abs (scaled p m e * 2 ^ (- e) - Zpos m * 10 ^ Z.of_nat p)
    = 2 ^ (- e) -> Z.even (scaled p m e) = true)).
Proof.
  split; [reflexivity|]. unfold scaled. split.
  - intros He. now rewrite (proj2 (Z.leb_le 0 e) He).
  - intros He. rewrite (proj2 (Z.leb_gt 0 e) He).
    set (n := Zpos m * 10 ^ Z.of_nat p). set (d := 2 ^ (- e)).
    assert (Hd : 0 < d) by (apply Z.pow_pos_nonneg; lia).
    unfold round_half_even.
    pose proof (Z.div_mod n d ltac:(lia)) as Hdm.
    pose proof (Z.mod_pos_bound n d Hd) as Hr.
    set (q := n / d) in *. set (r := n mod d) in *.
    assert (Hq : q * d = n - r) by lia.
    destruct (Z.compare_spec (2 * r) d) as [Heq|Hlt|Hgt].
    + destruct (Z.even q) eqn:Hev.
      * rewrite Hq. split; [lia|]. intros _. exact Hev.
      * replace ((q + 1) * d) with (n - r + d) by lia. split; [lia|].
        intros _. rewrite Z.even_add, Hev. reflexivity.
    + rewrite Hq. split; lia.
    + replace ((q + 1) * d) with (n - r + d) by lia. split; lia.
Qed.

End Coverage.
